(** * What's Up Docker integration: a shallow embedding

    The development follows the two modules that carry the behaviour of the
    integration:

    - [coordinator.py]: [WUDDataUpdateCoordinator], the polling coordinator;
    - [update.py]: [WUDUpdateEntity], the per-container update entity.

    Python values coming out of [response.json()] are modelled by the type
    [json]; Python dictionaries are finite maps ([gmap]); exceptions are
    values of an error monad; logging and network calls are recorded in a
    trace of events. *)

From Stdlib Require Import ZArith Ascii String DecimalString.
From stdpp Require Import gmap strings list fin_maps.

(** * Python [str] primitives

    A character is a code point below 256 (Rocq's [ascii]); on that range the
    regular-expression class [\d] is exactly ['0'..'9']. *)

Module PyStr.

(** [s.startswith(p)] *)
Fixpoint startswith (s p : string) : bool :=
  match p, s with
  | EmptyString, _ => true
  | String _ _, EmptyString => false
  | String a p', String b s' => if Ascii.eqb a b then startswith s' p' else false
  end.

(** [s.endswith(suf)]: some suffix of [s] is [suf]. *)
Fixpoint endswith (s suf : string) : bool :=
  if String.eqb s suf then true
  else match s with
       | EmptyString => false
       | String _ s' => endswith s' suf
       end.

(** [sub in s]: some suffix of [s] starts with [sub]. *)
Fixpoint contains (s sub : string) : bool :=
  if startswith s sub then true
  else match s with
       | EmptyString => false
       | String _ s' => contains s' sub
       end.

(** The scan of [str.replace]: left to right, occurrences do not overlap.
    [skip] counts the characters of the occurrence just replaced that are
    still to be passed over. *)
Fixpoint replace_from (old new : string) (skip : nat) (s : string) : string :=
  match s with
  | EmptyString => EmptyString
  | String c s' =>
      match skip with
      | S k => replace_from old new k s'
      | O =>
          if startswith s old
          then new +:+ replace_from old new (String.length old - 1) s'
          else String c (replace_from old new 0 s')
      end
  end.

(** With an empty [old], [str.replace] puts [new] before every character and
    at the end. *)
Fixpoint interleave (new s : string) : string :=
  match s with
  | EmptyString => new
  | String c s' => new +:+ String c (interleave new s')
  end.

(** [s.replace(old, new)] *)
Definition str_replace (s old new : string) : string :=
  match old with
  | EmptyString => interleave new s
  | String _ _ => replace_from old new 0 s
  end.

(** [sep.join(pieces)] *)
Fixpoint join (sep : string) (pieces : list string) : string :=
  match pieces with
  | [] => EmptyString
  | [p] => p
  | p :: ps => p +:+ sep +:+ join sep ps
  end.

Definition last_char (s : string) : option ascii :=
  last (list_ascii_of_string s).

(** ** The pattern [\d+$] *)

Definition is_digit (c : ascii) : bool :=
  (48 <=? nat_of_ascii c)%nat && (nat_of_ascii c <=? 57)%nat.

Fixpoint all_digits (s : string) : bool :=
  match s with
  | EmptyString => true
  | String c s' => is_digit c && all_digits s'
  end.

(** The greedy [\d+]: the leading digits of [s] and what follows them. *)
Fixpoint span_digits (s : string) : string * string :=
  match s with
  | EmptyString => (EmptyString, EmptyString)
  | String c s' =>
      if is_digit c
      then let '(ds, r) := span_digits s' in (String c ds, r)
      else (EmptyString, s)
  end.

Definition newline : ascii := "010"%char.

(** [$] without [re.MULTILINE]: the end of the string, or just before a
    newline that is the last character. *)
Definition at_dollar (rest : string) : bool :=
  match rest with
  | EmptyString => true
  | String c EmptyString => Ascii.eqb c newline
  | _ => false
  end.

(** [\d+$] tried at the start of [s]. Giving back digits cannot help: the
    character after a shorter run is a digit, where [$] fails. *)
Definition match_digits_eol (s : string) : option string :=
  let '(ds, r) := span_digits s in
  match ds with
  | EmptyString => None
  | String _ _ => if at_dollar r then Some ds else None
  end.

(** [re.search(r"\d+$", s)], with [match.group()] taken on success: the
    leftmost position where the pattern matches. *)
Fixpoint re_search_digits_eol (s : string) : option string :=
  match match_digits_eol s with
  | Some m => Some m
  | None =>
      match s with
      | EmptyString => None
      | String _ s' => re_search_digits_eol s'
      end
  end.

(** ** Specification-side notions *)

(** The trailing run of decimal digits: the longest suffix made of digits. *)
Fixpoint trailing_digits (s : string) : string :=
  match s with
  | EmptyString => EmptyString
  | String _ s' => if all_digits s then s else trailing_digits s'
  end.

(** [s] without one final newline. *)
Fixpoint chomp (s : string) : string :=
  match s with
  | EmptyString => EmptyString
  | String c EmptyString => if Ascii.eqb c newline then EmptyString else s
  | String c s' => String c (chomp s')
  end.

End PyStr.

(** * Python values, exceptions and effects *)

Module Py.

(** What [json.loads] produces. Numbers are the integer literals; a
    dictionary is a finite map from its (string) keys. *)
#[warnings="-register-all"]
Inductive json :=
| JNull
| JBool (b : bool)
| JInt (z : Z)
| JStr (s : string)
| JList (l : list json)
| JDict (d : gmap string json).

(** Keys of a Python dictionary built from JSON scalars. [True] and [False]
    hash and compare equal to [1] and [0], so they share a key. *)
Inductive hkey :=
| KNone
| KInt (z : Z)
| KStr (s : string).

#[global] Instance hkey_eq_dec : EqDecision hkey.
Proof. solve_decision. Defined.

#[global] Instance hkey_countable : Countable hkey.
Proof.
  refine (inj_countable'
    (λ k, match k with
          | KNone => inl ()
          | KInt z => inr (inl z)
          | KStr s => inr (inr s)
          end)
    (λ x, match x with
          | inl _ => KNone
          | inr (inl z) => KInt z
          | inr (inr s) => KStr s
          end) _).
  by intros [].
Defined.

#[global] Instance KStr_inj : Inj (=) (=) KStr.
Proof. by intros ?? [= ->]. Qed.

(** Exceptions deriving from [Exception] that the code can meet. Task
    cancellation is not modelled. *)
Inductive exn :=
| TypeError
| AttributeError
| KeyError
| ValueError
| TimeoutError
| ClientError
| ServerTimeoutError
| UpdateFailed (msg : string) (cause : exn).

(** [isinstance(err, TimeoutError)]; aiohttp's [ServerTimeoutError] derives
    from both [ClientError] and [TimeoutError]. *)
Definition is_TimeoutError (e : exn) : bool :=
  match e with
  | TimeoutError | ServerTimeoutError => true
  | _ => false
  end.

(** [isinstance(err, aiohttp.ClientError)] *)
Definition is_ClientError (e : exn) : bool :=
  match e with
  | ClientError | ServerTimeoutError => true
  | _ => false
  end.

Inductive result (A : Type) :=
| Ok (a : A)
| Raise (e : exn).
Arguments Ok {A} a.
Arguments Raise {A} e.

#[global] Instance result_ret : MRet result := @Ok.
#[global] Instance result_bind : MBind result :=
  λ A B f m, match m with Ok a => f a | Raise e => Raise e end.
#[global] Instance result_fmap : FMap result :=
  λ A B f m, match m with Ok a => Ok (f a) | Raise e => Raise e end.

(** ** Operations on values *)

(** [bool(v)] *)
Definition py_truthy (v : json) : bool :=
  match v with
  | JNull => false
  | JBool b => b
  | JInt z => negb (z =? 0)%Z
  | JStr s => negb (String.eqb s "")
  | JList l => match l with [] => false | _ :: _ => true end
  | JDict d => negb (Nat.eqb (size d) 0)
  end.

(** [d.get(k)] on a dictionary: [None] when the key is missing. *)
Definition dict_get {K} `{Countable K} (d : gmap K json) (k : K) : json :=
  default JNull (d !! k).

(** [v.get(k, dflt)]; only dictionaries have the method. *)
Definition py_get (v : json) (k : string) (dflt : json) : result json :=
  match v with
  | JDict d => Ok (default dflt (d !! k))
  | _ => Raise AttributeError
  end.

(** [v[k]] with a string [k] *)
Definition py_getitem (v : json) (k : string) : result json :=
  match v with
  | JDict d => match d !! k with Some x => Ok x | None => Raise KeyError end
  | _ => Raise TypeError
  end.

(** [for x in v]: the items visited. A dictionary yields its keys (their
    order plays no role below), a string its characters. *)
Definition py_iter (v : json) : result (list json) :=
  match v with
  | JList l => Ok l
  | JDict d => Ok ((λ kv, JStr kv.1) <$> map_to_list d)
  | JStr s => Ok ((λ c, JStr (String c "")) <$> list_ascii_of_string s)
  | _ => Raise TypeError
  end.

(** Use of [v] as a dictionary key: lists and dictionaries are unhashable. *)
Definition py_hash_key (v : json) : result hkey :=
  match v with
  | JNull => Ok KNone
  | JBool b => Ok (KInt (if b then 1 else 0))
  | JInt z => Ok (KInt z)
  | JStr s => Ok (KStr s)
  | JList _ | JDict _ => Raise TypeError
  end.

(** [v and v.endswith(suf)] *)
Definition py_and_endswith (v : json) (suf : string) : result bool :=
  if py_truthy v then
    match v with
    | JStr s => Ok (PyStr.endswith s suf)
    | _ => Raise AttributeError
    end
  else Ok false.

(** [v.replace(old, new)] *)
Definition py_replace (v : json) (old new : string) : result string :=
  match v with
  | JStr s => Ok (PyStr.str_replace s old new)
  | _ => Raise AttributeError
  end.

(** [v += s] with a string [s]: concatenation on a string; a list is extended
    with the characters of [s]. *)
Definition py_iadd_str (v : json) (s : string) : result json :=
  match v with
  | JStr l => Ok (JStr (l +:+ s))
  | JList l => Ok (JList (l ++ ((λ c, JStr (String c "")) <$> list_ascii_of_string s)))
  | _ => Raise TypeError
  end.

(** [sub in v] with a string [sub] *)
Definition py_in (sub : string) (v : json) : result bool :=
  match v with
  | JStr s => Ok (PyStr.contains s sub)
  | JList l =>
      Ok (existsb (λ x, match x with JStr s => String.eqb s sub | _ => false end) l)
  | JDict d => Ok (bool_decide (is_Some (d !! sub)))
  | _ => Raise TypeError
  end.

(** [re.search(r"\d+$", tag)]; the subject has to be a string. *)
Definition re_search_trailing_digits (tag : json) : result (option string) :=
  match tag with
  | JStr s => Ok (PyStr.re_search_digits_eol s)
  | _ => Raise TypeError
  end.

(** ** Effects: logging and the network *)

Inductive level := DEBUG | INFO | WARNING | ERROR.

(** The f-string [f"{url}/{container_id}/triggers/{trigger_url_path}"], kept
    by its parts. *)
Record trigger_endpoint := {
  ep_url : string;
  ep_container_id : json;
  ep_trigger_path : string
}.

Inductive event :=
| Log (lvl : level) (fmt : string)
| HttpGet (url : string)
| HttpPost (endpoint : trigger_endpoint)
| UpdateListeners.

(** An [aiohttp] response: its status and what reading the body gives. *)
Record response := {
  status : Z;
  json_body : result json;
  text_body : result string
}.

(** Entering [async with session.get(...)]: a response, or an exception
    (a timeout of the enclosing [asyncio] bound included). *)
Inductive http_outcome :=
| Responds (r : response)
| Fails (e : exn).

Record network := {
  on_get : string → http_outcome;
  on_post : trigger_endpoint → http_outcome
}.

(** A coroutine run to completion: the events it caused, then its value or
    the exception it raised. *)
Definition io (A : Type) : Type := (list event * result A)%type.

#[global] Instance io_ret : MRet io := λ A a, ([], Ok a).
#[global] Instance io_bind : MBind io :=
  λ A B f m,
    match m with
    | (t, Ok a) => let '(t', r) := f a in (t ++ t', r)
    | (t, Raise e) => (t, Raise e)
    end.

Definition lift {A} (r : result A) : io A := ([], r).
Definition log (lvl : level) (fmt : string) : io unit := ([Log lvl fmt], Ok ()).

Definition of_outcome (o : http_outcome) : result response :=
  match o with
  | Responds r => Ok r
  | Fails e => Raise e
  end.

Definition http_get (net : network) (url : string) : io response :=
  ([HttpGet url], of_outcome (on_get net url)).

Definition http_post (net : network) (ep : trigger_endpoint) : io response :=
  ([HttpPost ep], of_outcome (on_post net ep)).

(** [try: m except Exception as err: handler err] *)
Definition try_except {A} (m : io A) (handler : exn → io A) : io A :=
  match m with
  | (t, Ok a) => (t, Ok a)
  | (t, Raise e) => let '(t', r) := handler e in (t ++ t', r)
  end.

(** [response.raise_for_status()]: [ClientResponseError] from status 400 on. *)
Definition raise_for_status (r : response) : result unit :=
  if (400 <=? status r)%Z then Raise ClientError else Ok ().

End Py.

(** * coordinator.py *)

Module Coordinator.
Import Py.

(** The coordinator object: its configuration, and the two attributes the
    refresh cycle writes ([data], the snapshot, and [last_update_success]). *)
Record WUDDataUpdateCoordinator := {
  _url : string;
  _instance_name : string;
  data : gmap hkey json;
  last_update_success : bool
}.

(** [_async_fetch_data]: one GET on the configured URL. *)
Definition _async_fetch_data (self : WUDDataUpdateCoordinator) (net : network)
  : io json :=
  response ← http_get net (_url self);
  _ ← lift (raise_for_status response);
  lift (json_body response).

(** [{container["name"]: container for container in data}], filled in the
    order of the iteration. *)
Fixpoint dict_by_name (acc : gmap hkey json) (items : list json)
  : result (gmap hkey json) :=
  match items with
  | [] => Ok acc
  | container :: rest =>
      name ← py_getitem container "name";
      k ← py_hash_key name;
      dict_by_name (<[k := container]> acc) rest
  end.

(** [_async_update_data]. The bound of [asyncio.wait_for] shows as a
    [TimeoutError] outcome of the network. *)
Definition _async_update_data (self : WUDDataUpdateCoordinator) (net : network)
  : io (gmap hkey json) :=
  try_except
    (fetched ← _async_fetch_data self net;
     lift (items ← py_iter fetched; dict_by_name ∅ items))
    (λ err,
      if is_TimeoutError err then
        _ ← log ERROR "Timeout fetching data from WUD: %s";
        lift (Raise (UpdateFailed "Timeout fetching data from WUD: " err))
      else if is_ClientError err then
        _ ← log ERROR "Client error fetching data from WUD: %s";
        lift (Raise (UpdateFailed "Client error fetching data from WUD: " err))
      else
        _ ← log ERROR "Unexpected error fetching data from WUD: %s";
        lift (Raise (UpdateFailed "Unexpected error fetching data from WUD: " err))).

(** Modelled from the spec: the refresh cycle of the host platform's
    coordinator base class, which runs [_async_update_data] and is not part of
    these sources. On success the snapshot is replaced as a whole, the success
    flag is set and the listeners are notified; on failure the previous
    snapshot is retained and the failure is recorded in
    [last_update_success]; nothing is raised to the entity layer. *)
Definition refresh (self : WUDDataUpdateCoordinator) (net : network)
  : list event * WUDDataUpdateCoordinator :=
  match _async_update_data self net with
  | (t, Ok snapshot) =>
      (t ++ [UpdateListeners],
       {| _url := _url self; _instance_name := _instance_name self;
          data := snapshot; last_update_success := true |})
  | (t, Raise _) =>
      (t,
       {| _url := _url self; _instance_name := _instance_name self;
          data := data self; last_update_success := false |})
  end.

End Coordinator.

(** * update.py *)

Module Update.
Import Py Coordinator.

(** The entity keeps a reference to the coordinator and its own immutable
    key; the coordinator is passed to every reader below, so that each read
    sees the coordinator's current attributes. *)
Record WUDUpdateEntity := {
  _container_name : hkey;
  _entry_id : string
}.

(** [installed_version] *)
Definition installed_version (coordinator : WUDDataUpdateCoordinator)
    (self : WUDUpdateEntity) : result json :=
  let container_data := dict_get (data coordinator) (_container_name self) in
  if py_truthy container_data then
    image ← py_get container_data "image" (JDict ∅);
    tag ← py_get image "tag" (JDict ∅);
    py_get tag "value" JNull
  else Ok JNull.

(** [latest_version] *)
Definition latest_version (coordinator : WUDDataUpdateCoordinator)
    (self : WUDUpdateEntity) : result json :=
  let container_data := dict_get (data coordinator) (_container_name self) in
  if py_truthy container_data then
    update_available ← py_get container_data "updateAvailable" JNull;
    if py_truthy update_available then
      result ← py_get container_data "result" (JDict ∅);
      py_get result "tag" JNull
    else
      image ← py_get container_data "image" (JDict ∅);
      tag ← py_get image "tag" (JDict ∅);
      py_get tag "value" JNull
  else Ok JNull.

(** The link and the tag [release_url] starts from (lines 124-129). *)
Definition chosen_link_and_tag (container_data : json) : result (json * json) :=
  update_available ← py_get container_data "updateAvailable" JNull;
  if py_truthy update_available then
    result ← py_get container_data "result" (JDict ∅);
    link ← py_get result "link" JNull;
    result' ← py_get container_data "result" (JDict ∅);
    tag ← py_get result' "tag" JNull;
    Ok (link, tag)
  else
    link ← py_get container_data "link" JNull;
    image ← py_get container_data "image" (JDict ∅);
    tag' ← py_get image "tag" (JDict ∅);
    tag ← py_get tag' "value" JNull;
    Ok (link, tag).

(** The two fixes of [release_url] (lines 131-150). *)
Definition release_url_fixup (link tag : json) : result json :=
  undefined_link ← py_and_endswith link "undefined";
  if undefined_link : bool then
    match_ ← re_search_trailing_digits tag;
    match match_ with
    | Some digits => JStr <$> py_replace link "undefined" digits
    | None => Ok link
    end
  else
    dotted_link ← py_and_endswith link ".";
    if dotted_link : bool then
      match_ ← re_search_trailing_digits tag;
      match match_ with
      | Some digits => py_iadd_str link digits
      | None => Ok link
      end
    else Ok link.

(** [release_url] *)
Definition release_url (coordinator : WUDDataUpdateCoordinator)
    (self : WUDUpdateEntity) : result json :=
  let container_data := dict_get (data coordinator) (_container_name self) in
  if py_truthy container_data then
    '(link, tag) ← chosen_link_and_tag container_data;
    release_url_fixup link tag
  else Ok JNull.

(** The GitHub API address for a release page (lines 162-174); [None] for
    an unsupported address. *)
Definition github_api_url (release_url : json) : result (option string) :=
  tag_page ← py_in "/releases/tag/" release_url;
  tags_page ← (if tag_page : bool then Ok true else py_in "/tags/" release_url);
  if tags_page : bool then
    api_url ← py_replace release_url "https://github.com/" "https://api.github.com/repos/";
    Ok (Some (if PyStr.contains api_url "/releases/tag/"
              then PyStr.str_replace api_url "/releases/tag/" "/releases/tags/"
              else api_url))
  else
    latest_page ← py_in "/releases/latest" release_url;
    if latest_page : bool then
      Some <$> py_replace release_url "https://github.com/" "https://api.github.com/repos/"
    else Ok None.

(** The request of [async_release_notes] (lines 182-201): the [try] block
    with its three handlers. *)
Definition fetch_release_body (net : network) (api_url : string) : io json :=
  try_except
    (response ← http_get net api_url;
     if (status response =? 403)%Z then
       _ ← log ERROR "GitHub API rate limit exceeded";
       mret JNull
     else
       _ ← lift (raise_for_status response);
       data ← lift (json_body response);
       lift (py_get data "body" JNull))
    (λ err,
      if is_TimeoutError err then
        _ ← log ERROR "Timeout fetching release notes from GitHub";
        mret JNull
      else if is_ClientError err then
        _ ← log ERROR "Error fetching release notes from GitHub API: %s";
        mret JNull
      else
        _ ← log ERROR "Unexpected error";
        mret JNull).

(** [async_release_notes] *)
Definition async_release_notes (coordinator : WUDDataUpdateCoordinator)
    (self : WUDUpdateEntity) (net : network) : io json :=
  let container_data := dict_get (data coordinator) (_container_name self) in
  if negb (py_truthy container_data) then mret JNull
  else
    release_url ← lift (release_url coordinator self);
    on_github ← lift (if py_truthy release_url then py_in "github.com" release_url
                      else Ok false);
    if on_github : bool then
      api ← lift (github_api_url release_url);
      match api with
      | None =>
          _ ← log ERROR "Unsupported GitHub URL format: %s";
          mret JNull
      | Some api_url => fetch_release_body net api_url
      end
    else
      _ ← log DEBUG "No GitHub URL found or not applicable: %s";
      mret JNull.

(** [in_progress] *)
Definition in_progress (self : WUDUpdateEntity) : bool := false.

(** The request of [async_install] (lines 237-262): the [try] block with its
    two handlers. *)
Definition post_trigger (net : network) (trigger_endpoint : trigger_endpoint)
  : io unit :=
  try_except
    (_ ← log DEBUG "Sending update request to WUD trigger endpoint: %s";
     response ← http_post net trigger_endpoint;
     response_text ← lift (text_body response);
     if (status response =? 200)%Z then
       log INFO "Update for container %s has been triggered successfully"
     else
       log ERROR "Failed to trigger update for container %s: %s")
    (λ err,
      if is_ClientError err then
        log ERROR "Error communicating with WUD API: %s"
      else
        log ERROR "Unexpected error during update").

(** [async_install] *)
Definition async_install (coordinator : WUDDataUpdateCoordinator)
    (self : WUDUpdateEntity) (net : network) : io unit :=
  _ ← log INFO "Starting update for container %s";
  let container_data := dict_get (data coordinator) (_container_name self) in
  if negb (py_truthy container_data) then
    log ERROR "Container data not found for %s"
  else
    labels ← lift (py_get container_data "labels" (JDict ∅));
    trigger_name ← lift (py_get labels "wud.trigger.hass" (JDict ∅));
    if negb (py_truthy trigger_name) then
      log ERROR "HASS Trigger Label not found for %s"
    else
      trigger_url_path ← lift (py_replace trigger_name "." "/");
      container_id ← lift (py_get container_data "id" JNull);
      if negb (py_truthy container_id) then
        log ERROR "No container id for %s"
      else
        post_trigger net
          {| ep_url := _url coordinator;
             ep_container_id := container_id;
             ep_trigger_path := trigger_url_path |}.

(** [available] *)
Definition available (coordinator : WUDDataUpdateCoordinator)
    (self : WUDUpdateEntity) : bool :=
  last_update_success coordinator.

End Update.

(** * Specification-side vocabulary

    The notions the specification uses to talk about a container record,
    independent of how the code reads it. *)

Module Spec.
Import Py.

(** [record.a.b]: the value reached along a path of field names; absent when
    a step is missing or is not an object. *)
Fixpoint field (v : json) (path : list string) : json :=
  match path with
  | [] => v
  | k :: rest =>
      match v with
      | JDict d => match d !! k with Some x => field x rest | None => JNull end
      | _ => JNull
      end
  end.

Definition update_available (record : json) : bool :=
  py_truthy (field record ["updateAvailable"]).



(** Every step of the path that is present in [v] leads to an object, and
    [v] is one itself. *)
Fixpoint objects_along (v : json) (path : list string) {struct path} : bool :=
  match v, path with
  | JDict _, [] => true
  | JDict d, k :: rest =>
      match d !! k with
      | None => true
      | Some x => objects_along x rest
      end
  | _, _ => false
  end.

Definition is_str (v : json) : bool :=
  match v with JStr _ => true | _ => false end.


(** The record carries no label [wud.trigger.hass]: it has no labels, or its
    labels lack that key, or what it has for labels (or the record itself) is
    no object, which has no keys at all. *)
Definition lacks_trigger_label (record : json) : bool :=
  match record with
  | JDict d =>
      match d !! "labels" with
      | None => true
      | Some (JDict labels) =>
          match labels !! "wud.trigger.hass" with None => true | Some _ => false end
      | Some _ => true
      end
  | _ => true
  end.

(** The labels of the record can be looked into: the record is an object
    whose [labels], when present, is an object; or the record tests false, and
    is not looked into at all. *)
Definition labels_readable (record : json) : bool :=
  match record with
  | JDict d =>
      match d !! "labels" with
      | None | Some (JDict _) => true
      | Some _ => false
      end
  | _ => negb (py_truthy record)
  end.

(** The digit run a right-anchored digit match finds: the trailing run of
    digits, one final newline of the tag set aside. *)
Definition digit_run (tag : string) : string :=
  PyStr.trailing_digits (PyStr.chomp tag).

(** The two fixes, on a link and a tag that are strings. *)
Definition fixed_link (link tag : string) : string :=
  if PyStr.endswith link "undefined" then
    match digit_run tag with
    | EmptyString => link
    | String _ _ as digits => PyStr.str_replace link "undefined" digits
    end
  else if PyStr.endswith link "." then link +:+ digit_run tag
  else link.


(** The message of a failed refresh follows the class of its cause. *)
Definition failure_message (cause : exn) : string :=
  if is_TimeoutError cause then "Timeout fetching data from WUD: "
  else if is_ClientError cause then "Client error fetching data from WUD: "
  else "Unexpected error fetching data from WUD: ".

(** The [name] of a container record. *)
Definition name_of (record : json) : option string :=
  match field record ["name"] with
  | JStr s => Some s
  | _ => None
  end.

Definition names (records : list json) : list string := omap name_of records.

(** The last record of the array that carries the name [n]. *)
Definition last_named (n : string) (records : list json) : option json :=
  last (filter (λ r, name_of r = Some n) records).

End Spec.

(** * Concrete records, coordinators and networks *)

Module Examples.
Import Py Coordinator Update.

Definition obj (fields : list (string * json)) : json :=
  JDict (list_to_map fields).

Definition coordinator_of (records : list (hkey * json)) : WUDDataUpdateCoordinator :=
  {| _url := "http://wud:3000/api/containers";
     _instance_name := "home";
     data := list_to_map records;
     last_update_success := true |}.

Definition entity (name : string) : WUDUpdateEntity :=
  {| _container_name := KStr name; _entry_id := "entry" |}.

(** A record with an update available, with the given [result]. *)
Definition updatable (result : list (string * json)) : json :=
  obj [("name", JStr "app"); ("id", JStr "c0ffee");
       ("image", obj [("tag", obj [("value", JStr "v1.2.2")])]);
       ("updateAvailable", JBool true);
       ("result", obj result)].

Definition watching (record : json) : WUDDataUpdateCoordinator :=
  coordinator_of [(KStr "app", record)].

Definition download_undefined : string :=
  "https://github.com/o/r/releases/download/v1.2.undefined".

(** The link and tag of the specification's example. *)
Definition prerelease : json :=
  updatable [("tag", JStr "v1.2.3"); ("link", JStr download_undefined)].



(** Records whose [result] has a link and no tag. *)
Definition untagged_undefined : json :=
  updatable [("link", JStr download_undefined)].

Definition untagged_dotted : json :=
  updatable [("link", JStr "https://github.com/o/r/releases/tag/v2.0.")].

(** A link with two occurrences of [undefined]. *)
Definition twice_undefined : string :=
  "https://github.com/undefined/r/releases/tag/v1.undefined".

(** A record with a release page on GitHub. *)
Definition released : json :=
  updatable [("tag", JStr "v1.2.3");
             ("link", JStr "https://github.com/o/r/releases/tag/v1.2.3")].

(** A record without an update and without labels. *)
Definition up_to_date : json :=
  obj [("name", JStr "app"); ("id", JStr "c0ffee");
       ("image", obj [("tag", obj [("value", JStr "v1.2.2")])]);
       ("updateAvailable", JBool false);
       ("link", JStr "https://github.com/o/r/releases/tag/v1.2.2")].



(** A record whose [labels] is null. *)
Definition null_labels : json :=
  obj [("name", JStr "app"); ("id", JStr "c0ffee"); ("labels", JNull)].

(** An array in which the name [app] occurs twice. *)
Definition named (name version : string) : json :=
  obj [("name", JStr name);
       ("image", obj [("tag", obj [("value", JStr version)])])].

Definition app_twice : list json :=
  [named "app" "v1"; named "db" "v7"; named "app" "v2"].

(** A network that answers every request with the given status and body. *)
Definition answering (st : Z) (body : json) : network :=
  let r := {| status := st; json_body := Ok body; text_body := Ok "" |} in
  {| on_get := λ _, Responds r; on_post := λ _, Responds r |}.

(** A network on which every request raises [e]. *)
Definition failing (e : exn) : network :=
  {| on_get := λ _, Fails e; on_post := λ _, Fails e |}.

End Examples.

(** * Shapes of records and answers *)

Module Shape.
Import Py.

(** [record] is an object whose [name] makes the dictionary key [k]. *)
Definition keyed_by (k : hkey) (record : json) : bool :=
  match record with
  | JDict d =>
      match d !! "name" with
      | Some JNull => bool_decide (k = KNone)
      | Some (JBool b) => bool_decide (k = KInt (if b then 1 else 0))
      | Some (JInt z) => bool_decide (k = KInt z)
      | Some (JStr s) => bool_decide (k = KStr s)
      | _ => false
      end
  | _ => false
  end.

(** An item the refresh can file under a name: an object whose [name] is a
    scalar. *)
Definition indexable (item : json) : bool :=
  match item with
  | JDict d =>
      match d !! "name" with
      | Some (JList _) | Some (JDict _) | None => false
      | Some _ => true
      end
  | _ => false
  end.

(** The record with its field [k] set to [v]. *)
Definition with_field (k : string) (v : json) (record : json) : json :=
  match record with
  | JDict d => JDict (<[k := v]> d)
  | _ => record
  end.

(** The coordinator with the record of [key] replaced. *)
Definition with_record (key : hkey) (record : json)
    (coordinator : Coordinator.WUDDataUpdateCoordinator)
  : Coordinator.WUDDataUpdateCoordinator :=
  {| Coordinator._url := Coordinator._url coordinator;
     Coordinator._instance_name := Coordinator._instance_name coordinator;
     Coordinator.data := <[key := record]> (Coordinator.data coordinator);
     Coordinator.last_update_success := Coordinator.last_update_success coordinator |}.

(** How a refresh ends when [cause] is raised inside it, after its one
    request: one error logged, [UpdateFailed] raised from the cause. *)
Definition failed_refresh (self : Coordinator.WUDDataUpdateCoordinator) (cause : exn)
  : io (gmap hkey json) :=
  ([HttpGet (Coordinator._url self); Log ERROR (Spec.failure_message cause +:+ "%s")],
   Raise (UpdateFailed (Spec.failure_message cause) cause)).

(** The events that are network calls. *)
Definition is_request (e : event) : bool :=
  match e with
  | HttpGet _ | HttpPost _ => true
  | _ => false
  end.

(** The page kinds of GitHub that the release notes know. *)
Definition release_page (url : string) : bool :=
  PyStr.contains url "/releases/tag/" || PyStr.contains url "/tags/"
  || PyStr.contains url "/releases/latest".

(** What the release-notes request logs when it raises. *)
Definition notes_failure_message (e : exn) : string :=
  if is_TimeoutError e then "Timeout fetching release notes from GitHub"
  else if is_ClientError e then "Error fetching release notes from GitHub API: %s"
  else "Unexpected error".

(** A label that names a trigger: a string that is not empty. *)
Definition trigger_label (record : json) : option string :=
  match Spec.field record ["labels"; "wud.trigger.hass"] with
  | JStr l => if String.eqb l "" then None else Some l
  | _ => None
  end.

End Shape.

(** * update.py: the setup of the platform *)

Module Platform.
Import Py Coordinator Update.

(** [WUDUpdateEntity.__init__], as far as the readers use it: the key and the
    entry id are kept. *)
Definition new_entity (container_name : hkey) (entry_id : string) : WUDUpdateEntity :=
  {| _container_name := container_name; _entry_id := entry_id |}.

#[global] Instance new_entity_inj entry_id : Inj (=) (=) (λ k, new_entity k entry_id).
Proof. by intros ?? [= ->]. Qed.

(** [_attr_unique_id], the f-string [f"{entry_id}_{container_name}"], for a
    container name that is a string. *)
Definition _attr_unique_id (entry_id container_name : string) : string :=
  entry_id +:+ "_" +:+ container_name.

(** [_attr_name], the f-string [f"{container_name} ({instance_name})"], for a
    container name that is a string. *)
Definition _attr_name (container_name instance_name : string) : string :=
  container_name +:+ " (" +:+ instance_name +:+ ")".

(** [async_setup_entry] of the platform. [hass_data] is what [hass.data]
    holds under the integration's key, if anything. The result is the list
    handed to [async_add_entities], or nothing when the function returns
    early. The entities come in the order of the snapshot's keys, which the
    map does not record. The reload listener that the last line registers
    with the entry is the host's business and leaves no trace here. *)
Definition async_setup_entry
    (hass_data : option (gmap string WUDDataUpdateCoordinator)) (entry_id : string)
  : list event * option (list WUDUpdateEntity) :=
  let domain_data := default ∅ hass_data in
  match domain_data !! entry_id with
  | None => ([Log ERROR "No WUD coordinator found for entry_id %s"], None)
  | Some coordinator =>
      if negb (last_update_success coordinator) then
        ([Log ERROR "Failed to retrieve data from WUD at startup"], None)
      else
        ([], Some ((λ kv, new_entity kv.1 entry_id) <$> map_to_list (data coordinator)))
  end.

End Platform.

(** * config_flow.py *)

Module ConfigFlow.
Import Py.

(** The keys of [homeassistant.const] that the flow and the setup use. *)
Definition CONF_NAME : string := "name".
Definition CONF_PROTOCOL : string := "protocol".
Definition CONF_HOST : string := "host".
Definition CONF_PORT : string := "port".
Definition CONF_USERNAME : string := "username".
Definition CONF_PASSWORD : string := "password".
Definition CONF_TOKEN : string := "token".

(** const.py *)
Definition DEFAULT_PROTOCOL : string := "http".
Definition DEFAULT_HOST : string := "".
Definition DEFAULT_PORT : Z := 3000.
Definition DEFAULT_USERNAME : string := "homeassistant".
Definition DEFAULT_PASSWORD : string := "".
Definition DEFAULT_CONF_NAME : string := "".
Definition DEFAULT_GITHUB_TOKEN : string := "".

(** The values a configuration holds: the schema admits [str] and [int]. *)
Inductive conf_value :=
| CStr (s : string)
| CInt (z : Z).

(** [str(z)] for an integer, as an f-string prints it. *)
Definition py_str_int (z : Z) : string := NilZero.string_of_int (Z.to_int z).

(** A value inside an f-string. *)
Definition fmt (v : conf_value) : string :=
  match v with
  | CStr s => s
  | CInt z => py_str_int z
  end.

(** [f"{protocol}://{host}:{port}/api/containers"] *)
Definition containers_url (protocol host port : conf_value) : string :=
  fmt protocol +:+ "://" +:+ fmt host +:+ ":" +:+ fmt port +:+ "/api/containers".

(** [aiohttp.BasicAuth(login, password)]: the login must not hold a colon;
    a login that is not a string cannot be searched for one. *)
Definition BasicAuth (login password : conf_value) : result (conf_value * conf_value) :=
  match login with
  | CStr s => if PyStr.contains s ":" then Raise ValueError else Ok (login, password)
  | CInt _ => Raise TypeError
  end.

(** One entry of a [vol.Schema]. *)
Inductive marker := Required | Optional.
Inductive validator := vol_str | vol_int.

Record schema_field := {
  field_marker : marker;
  field_key : string;
  field_default : conf_value;
  field_type : validator
}.

(** The [data_schema] of the user step (lines 83-93). *)
Definition user_schema : list schema_field :=
  [ {| field_marker := Required; field_key := CONF_NAME;
       field_default := CStr DEFAULT_CONF_NAME; field_type := vol_str |};
    {| field_marker := Required; field_key := CONF_PROTOCOL;
       field_default := CStr DEFAULT_PROTOCOL; field_type := vol_str |};
    {| field_marker := Required; field_key := CONF_HOST;
       field_default := CStr DEFAULT_HOST; field_type := vol_str |};
    {| field_marker := Required; field_key := CONF_PORT;
       field_default := CInt DEFAULT_PORT; field_type := vol_int |};
    {| field_marker := Required; field_key := CONF_USERNAME;
       field_default := CStr DEFAULT_USERNAME; field_type := vol_str |};
    {| field_marker := Required; field_key := CONF_PASSWORD;
       field_default := CStr DEFAULT_PASSWORD; field_type := vol_str |};
    {| field_marker := Optional; field_key := CONF_TOKEN;
       field_default := CStr DEFAULT_GITHUB_TOKEN; field_type := vol_str |} ].

(** The [data_schema] of the options step (lines 118-120). *)
Definition options_schema : list schema_field :=
  [ {| field_marker := Optional; field_key := CONF_TOKEN;
       field_default := CStr DEFAULT_GITHUB_TOKEN; field_type := vol_str |} ].

(** What the user step receives once the form has been validated against
    [user_schema]: every key is there, with a value of its type. *)
Record user_input := {
  in_name : string;
  in_protocol : string;
  in_host : string;
  in_port : Z;
  in_username : string;
  in_password : string;
  in_token : string
}.

(** What a step returns: a form to show, or an entry to create. *)
Inductive flow_result :=
| ShowForm (step_id : string) (data_schema : list schema_field)
    (errors : gmap string string)
| CreateEntry (title : string) (data : gmap string conf_value).

(** What can be raised inside the [try] of the user step: an exception of
    the request, or the flow manager refusing the unique id
    ([async_set_unique_id], [_abort_if_unique_id_configured]) by raising
    [AbortFlow], which derives from [Exception]. *)
Inductive flow_exn :=
| FlowPy (e : exn)
| AbortFlow (reason : string).

Definition is_client_error (e : flow_exn) : bool :=
  match e with
  | FlowPy e => is_ClientError e
  | AbortFlow _ => false
  end.

(** The flow manager: for a unique id, the reason for which it aborts the
    flow, if it does. *)
Record flow_manager := {
  abort_reason : string → option string
}.

(** The [try] block of the user step (lines 55-75): the result it returns, if
    it returns; the errors it leaves, if it falls through; or what it
    raises. *)
Inductive attempt :=
| Returned (r : flow_result)
| FellThrough (errors : gmap string string)
| Raised (e : flow_exn).

Definition connect (manager : flow_manager) (net : network) (url : string)
    (input : user_input) : attempt :=
  match on_get net url with
  | Fails e => Raised (FlowPy e)
  | Responds response =>
      if negb (status response =? 200)%Z then
        FellThrough (<["base" := "cannot_connect"]> ∅)
      else
        match abort_reason manager (in_name input +:+ "_" +:+ in_host input) with
        | Some reason => Raised (AbortFlow reason)
        | None =>
            Returned
              (CreateEntry ("WUD (" +:+ in_name input +:+ ")")
                 (<[CONF_TOKEN := CStr (in_token input)]>
                    (<[CONF_PASSWORD := CStr (in_password input)]>
                       (<[CONF_USERNAME := CStr (in_username input)]>
                          (<[CONF_PORT := CInt (in_port input)]>
                             (<[CONF_HOST := CStr (in_host input)]>
                                (<[CONF_PROTOCOL := CStr (in_protocol input)]>
                                   (<[CONF_NAME := CStr (in_name input)]> ∅))))))))
        end
  end.

(** [WUDConfigFlow.async_step_user] *)
Definition async_step_user (manager : flow_manager) (net : network)
    (user_input : option user_input) : list event * result flow_result :=
  match user_input with
  | None => ([], Ok (ShowForm "user" user_schema ∅))
  | Some input =>
      let url :=
        containers_url (CStr (in_protocol input)) (CStr (in_host input))
          (CInt (in_port input)) in
      match BasicAuth (CStr (in_username input)) (CStr (in_password input)) with
      | Raise e => ([], Raise e)
      | Ok auth =>
          match connect manager net url input with
          | Returned r => ([HttpGet url], Ok r)
          | FellThrough errors => ([HttpGet url], Ok (ShowForm "user" user_schema errors))
          | Raised e =>
              if is_client_error e then
                ([HttpGet url; Log ERROR "Client error connecting to WUD"],
                 Ok (ShowForm "user" user_schema (<["base" := "cannot_connect"]> ∅)))
              else
                ([HttpGet url; Log ERROR "Unexpected error"],
                 Ok (ShowForm "user" user_schema (<["base" := "unknown"]> ∅)))
          end
      end
  end.

(** [WUDOptionsFlowHandler.async_step_init] *)
Definition async_step_init (user_input : option (gmap string conf_value)) : flow_result :=
  match user_input with
  | Some input => CreateEntry "" input
  | None => ShowForm "init" options_schema ∅
  end.

End ConfigFlow.

(** * __init__.py *)

Module Integration.
Import Py Coordinator ConfigFlow.

Record ConfigEntry := {
  entry_id : string;
  entry_data : gmap string conf_value
}.

(** [entry.data[key]] *)
Definition entry_getitem (entry : ConfigEntry) (key : string) : result conf_value :=
  match entry_data entry !! key with
  | Some v => Ok v
  | None => Raise KeyError
  end.

(** What the host platform does for the two setups: the first refresh of a
    new coordinator (it gives back the coordinator as refreshed, or raises),
    the forwarding of the entry to the platforms, and their unloading. *)
Record host := {
  first_refresh : WUDDataUpdateCoordinator → result WUDDataUpdateCoordinator;
  forward_entry_setups : result unit;
  unload_platforms : result bool
}.

(** The coordinator as constructed (lines 48-50). Its instance name is only
    ever printed, so its text is kept; its snapshot is not read before the
    first refresh. *)
Definition new_coordinator (url : string) (instance_name : conf_value)
  : WUDDataUpdateCoordinator :=
  {| _url := url; _instance_name := fmt instance_name;
     data := ∅; last_update_success := true |}.

(** [async_setup_entry]: what [hass.data] holds under the integration's key
    afterwards, and the value returned or the exception raised. *)
Definition async_setup_entry (platform : host)
    (hass_data : option (gmap string WUDDataUpdateCoordinator)) (entry : ConfigEntry)
  : option (gmap string WUDDataUpdateCoordinator) * result bool :=
  let domain_data := default ∅ hass_data in
  match
    instance_name ← entry_getitem entry "name";
    protocol ← entry_getitem entry "protocol";
    host ← entry_getitem entry "host";
    port ← entry_getitem entry "port";
    username ← entry_getitem entry "username";
    password ← entry_getitem entry "password";
    github_token ← entry_getitem entry "token";
    auth ← BasicAuth username password;
    first_refresh platform
      (new_coordinator (containers_url protocol host port) instance_name)
  with
  | Raise e => (Some domain_data, Raise e)
  | Ok coordinator =>
      (Some (<[entry_id entry := coordinator]> domain_data),
       _ ← forward_entry_setups platform; Ok true)
  end.

(** [async_unload_entry] *)
Definition async_unload_entry (platform : host)
    (hass_data : option (gmap string WUDDataUpdateCoordinator)) (entry : ConfigEntry)
  : option (gmap string WUDDataUpdateCoordinator) * result bool :=
  match unload_platforms platform with
  | Raise e => (hass_data, Raise e)
  | Ok unload_ok =>
      if unload_ok then
        let domain_data := default ∅ hass_data in
        match domain_data !! entry_id entry with
        | Some _ => (delete (entry_id entry) <$> hass_data, Ok unload_ok)
        | None => (hass_data, Raise KeyError)
        end
      else (hass_data, Ok unload_ok)
  end.

End Integration.

(** * How the flow and the setup fit together *)

Module Wiring.
Import Py ConfigFlow.

(** The address the user step probes for an input. *)
Definition probe_url (input : user_input) : string :=
  containers_url (CStr (in_protocol input)) (CStr (in_host input)) (CInt (in_port input)).

(** The unique id the user step asks for. *)
Definition unique_id (input : user_input) : string :=
  in_name input +:+ "_" +:+ in_host input.

(** The form of the user step with a [base] error. *)
Definition user_form_error (code : string) : flow_result :=
  ShowForm "user" user_schema (<["base" := code]> ∅).

(** The keys that the setup reads from an entry. *)
Definition setup_keys : list string :=
  ["name"; "protocol"; "host"; "port"; "username"; "password"; "token"].

End Wiring.

(** * More concrete records and inputs *)

Module Cases.
Import Py Coordinator Update ConfigFlow.

(** A record that names a trigger. *)
Definition triggered : json :=
  Examples.obj
    [("name", JStr "app"); ("id", JStr "c0ffee");
     ("labels", Examples.obj [("wud.trigger.hass", JStr "docker.local")])].

(** What [hass.data] holds once the entry "entry" has been set up. *)
Definition stored : option (gmap string WUDDataUpdateCoordinator) :=
  Some {[ "entry" := Examples.watching Examples.up_to_date ]}.

(** The input of the user step with the defaults of the form, for a host. *)
Definition input_for (name host : string) : user_input :=
  {| in_name := name; in_protocol := DEFAULT_PROTOCOL; in_host := host;
     in_port := DEFAULT_PORT; in_username := DEFAULT_USERNAME;
     in_password := DEFAULT_PASSWORD; in_token := DEFAULT_GITHUB_TOKEN |}.

(** A flow manager that knows no unique id, and one that knows them all. *)
Definition fresh_manager : flow_manager := {| abort_reason := λ _, None |}.
Definition taken_manager : flow_manager :=
  {| abort_reason := λ _, Some "already_configured" |}.

End Cases.

(** * Proof automation *)

(** Decides the character tests of a [startswith] on a partly known string;
    fails a goal whose tests cannot all hold. *)
Ltac eqb_chars H :=
  cbn [PyStr.startswith] in H;
  repeat match type of H with
         | context [Ascii.eqb ?a ?b] =>
             let E := fresh in
             destruct (Ascii.eqb_spec a b) as [E|];
             [first [discriminate E | subst] | discriminate H]
         end.

(** * Facts about the string primitives *)

Module PyStrFacts.
Import PyStr.

Lemma app_cons c s t : String c s +:+ t = String c (s +:+ t).
Proof. reflexivity. Qed.

Lemma app_nil_l t : "" +:+ t = t.
Proof. reflexivity. Qed.

Lemma app_nil_r s : s +:+ "" = s.
Proof. induction s as [|c s IH]; [done|]. by rewrite app_cons, IH. Qed.

Lemma app_assoc s t u : (s +:+ t) +:+ u = s +:+ t +:+ u.
Proof. induction s as [|c s IH]; [done|]. by rewrite !app_cons, IH. Qed.

Lemma length_app s t : String.length (s +:+ t) = String.length s + String.length t.
Proof. induction s as [|c s IH]; [done|]. rewrite app_cons. simpl. by rewrite IH. Qed.

(** ** [startswith], [endswith], [contains] *)

Lemma startswith_nil s : startswith s "" = true.
Proof. by destruct s. Qed.

Lemma startswith_app p r : startswith (p +:+ r) p = true.
Proof.
  induction p as [|c p IH]; [apply startswith_nil|].
  rewrite app_cons. simpl. by rewrite Ascii.eqb_refl.
Qed.

Lemma startswith_inv s p : startswith s p = true → ∃ r, s = p +:+ r.
Proof.
  revert s. induction p as [|c p IH]; intros s H; [by exists s|].
  destruct s as [|b s]; [done|]. simpl in H.
  destruct (Ascii.eqb_spec c b) as [->|]; [|done].
  destruct (IH _ H) as [r ->]. by exists r.
Qed.

Lemma startswith_app_l s t p : startswith s p = true → startswith (s +:+ t) p = true.
Proof.
  intros [r ->]%startswith_inv. rewrite app_assoc. apply startswith_app.
Qed.

Lemma endswith_refl s : endswith s s = true.
Proof. destruct s as [|c s]; [done|]. cbn [endswith]. by rewrite String.eqb_refl. Qed.

Lemma endswith_cons c s suf : endswith s suf = true → endswith (String c s) suf = true.
Proof. intros H. cbn [endswith]. rewrite H. by destruct (String.eqb (String c s) suf). Qed.

Lemma endswith_app p suf : endswith (p +:+ suf) suf = true.
Proof.
  induction p as [|c p IH]; [apply endswith_refl|].
  rewrite app_cons. by apply endswith_cons.
Qed.

Lemma endswith_inv s suf : endswith s suf = true → ∃ p, s = p +:+ suf.
Proof.
  induction s as [|c s IH]; cbn [endswith].
  - destruct (String.eqb_spec "" suf) as [<-|]; [by exists ""|done].
  - destruct (String.eqb_spec (String c s) suf) as [<-|]; [by exists ""|].
    intros [p ->]%IH. by exists (String c p).
Qed.

Lemma contains_nil old : old ≠ "" → contains "" old = false.
Proof. by destruct old. Qed.

Lemma contains_cons c s sub : contains s sub = true → contains (String c s) sub = true.
Proof. intros H. cbn [contains]. rewrite H. by destruct (startswith (String c s) sub). Qed.

Lemma contains_suffix p sub : contains (p +:+ sub) sub = true.
Proof.
  induction p as [|c p IH]; [|rewrite app_cons; by apply contains_cons].
  rewrite app_nil_l. pose proof (startswith_app sub "") as H.
  rewrite app_nil_r in H. destruct sub; cbn [contains]; by rewrite ?H.
Qed.

(** ** [last_char] *)

Lemma last_char_cons c s :
  last_char (String c s) = match last_char s with Some d => Some d | None => Some c end.
Proof.
  unfold last_char. cbn [list_ascii_of_string].
  destruct (list_ascii_of_string s) as [|x l]; [done|].
  change (last (c :: x :: l)) with (last (x :: l)).
  destruct (last (x :: l)) eqn:E; [done|]. by apply last_None in E.
Qed.

Lemma last_char_None s : last_char s = None → s = "".
Proof. destruct s as [|c s]; [done|]. rewrite last_char_cons. by destruct (last_char s). Qed.

Lemma last_char_app s t : t ≠ "" → last_char (s +:+ t) = last_char t.
Proof.
  intros Ht. induction s as [|c s IH]; [done|].
  rewrite app_cons, last_char_cons, IH.
  destruct (last_char t) eqn:E; [done|]. by apply last_char_None in E.
Qed.

Lemma endswith_last_char s suf c :
  endswith s suf = true → last_char suf = Some c → last_char s = Some c.
Proof.
  intros [p ->]%endswith_inv Hc. rewrite last_char_app; [done|]. by intros ->.
Qed.

(** ** [str_replace] *)

Lemma replace_from_skip old new u r :
  replace_from old new (String.length u) (u +:+ r) = replace_from old new 0 r.
Proof.
  induction u as [|c u IH]; [done|]. rewrite app_cons. simpl. apply IH.
Qed.

Lemma str_replace_nil old new : old ≠ "" → str_replace "" old new = "".
Proof. by destruct old. Qed.

Lemma str_replace_match old new r :
  old ≠ "" → str_replace (old +:+ r) old new = new +:+ str_replace r old new.
Proof.
  destruct old as [|c o]; [done|]. intros _. unfold str_replace.
  pose proof (startswith_app (String c o) r) as H.
  rewrite app_cons in *. cbn [replace_from]. rewrite H.
  f_equal. cbn [String.length]. rewrite Nat.sub_1_r. simpl Nat.pred.
  apply replace_from_skip.
Qed.

Lemma str_replace_skip old new c s :
  old ≠ "" → startswith (String c s) old = false →
  str_replace (String c s) old new = String c (str_replace s old new).
Proof.
  destruct old as [|b o]; [done|]. intros _ H. unfold str_replace.
  cbn [replace_from]. by rewrite H.
Qed.


(** The leftmost scan cuts [s] at every occurrence of [old]: the pieces
    between the occurrences hold none, and the result joins the same pieces
    with [new]. *)
Lemma str_replace_pieces old new s :
  old ≠ "" →
  ∃ pieces,
    pieces ≠ [] ∧
    s = join old pieces ∧
    str_replace s old new = join new pieces ∧
    Forall (λ p, contains p old = false) pieces.
Proof.
  intros Hold. remember (String.length s) as n eqn:Hn.
  revert s Hn. induction (lt_wf n) as [n _ IH]. intros s ->.
  destruct s as [|c s].
  { exists [""]. rewrite str_replace_nil by done. split_and!; [done..|].
    constructor; [by apply contains_nil|constructor]. }
  destruct (startswith (String c s) old) eqn:Hs.
  - destruct (startswith_inv _ _ Hs) as [r Hr].
    destruct (IH (String.length r)) with (s := r) as (ps & Hne & -> & Hrep & Hall); [|done|].
    { rewrite Hr, length_app. destruct old; [done|]. simpl. lia. }
    exists ("" :: ps). rewrite Hr, str_replace_match, Hrep by done.
    destruct ps as [|p ps]; [done|]. split_and!; [done..|].
    constructor; [by apply contains_nil|done].
  - destruct (IH (String.length s)) with (s := s) as (ps & Hne & Hj & Hrep & Hall);
      [simpl; lia|done|].
    destruct ps as [|p ps]; [done|]. exists (String c p :: ps).
    rewrite str_replace_skip, Hrep by done.
    apply Forall_cons in Hall as [Hp Hall].
    split_and!; [done| |by destruct ps|].
    + rewrite Hj. by destruct ps.
    + constructor; [|done]. cbn [contains].
      destruct (startswith (String c p) old) eqn:Hcp; [|done].
      rewrite Hj in Hs. destruct ps as [|p' ps].
      * cbn [join] in Hs. congruence.
      * change (join old (p :: p' :: ps)) with (p +:+ old +:+ join old (p' :: ps)) in Hs.
        rewrite <- app_cons in Hs. by rewrite (startswith_app_l _ _ _ Hcp) in Hs.
Qed.

(** ** The word [undefined] *)

(** No proper prefix of [undefined] is also a suffix of it, so an occurrence
    that starts inside [p +:+ "undefined"] at its first character lies in
    [p]. *)
Lemma undefined_unbordered p :
  p ≠ "" → startswith (p +:+ "undefined") "undefined" = true →
  ∃ p', p = "undefined" +:+ p'.
Proof.
  intros Hp H.
  do 9 (destruct p as [|? p];
        [ first [done | exfalso; rewrite ?app_cons, ?app_nil_l in H; by eqb_chars H] | ]).
  rewrite !app_cons in H. eqb_chars H.
  by exists p.
Qed.

(** Replacing in a link that ends with [undefined] leaves a string that ends
    with the replacement. *)
Lemma str_replace_undefined_suffix new p :
  ∃ q, str_replace (p +:+ "undefined") "undefined" new = q +:+ new.
Proof.
  remember (String.length p) as n eqn:Hn.
  revert p Hn. induction (lt_wf n) as [n _ IH]. intros p ->.
  destruct p as [|c p].
  { exists "". rewrite app_nil_l.
    rewrite <- (app_nil_r "undefined") at 1.
    rewrite str_replace_match, str_replace_nil by done. by rewrite app_nil_r. }
  destruct (startswith (String c p +:+ "undefined") "undefined") eqn:Hs.
  - destruct (undefined_unbordered (String c p)) as [p' Hp']; [done..|].
    rewrite Hp', app_assoc, str_replace_match by done.
    destruct (IH (String.length p')) with (p := p') as [q ->]; [|done|].
    { rewrite Hp', length_app. simpl. lia. }
    exists (new +:+ q). by rewrite app_assoc.
  - rewrite app_cons in *. rewrite str_replace_skip by done.
    destruct (IH (String.length p)) with (p := p) as [q ->]; [simpl; lia|done|].
    by exists (String c q).
Qed.


(** ** The pattern [\d+$] against the trailing run of digits *)

Lemma at_dollar_inv e : at_dollar e = true → e = "" ∨ e = String newline "".
Proof.
  destruct e as [|c [|? ?]]; [by left| |done].
  cbn. intros ->%Ascii.eqb_eq. by right.
Qed.

Lemma span_digits_sound s :
  s = (span_digits s).1 +:+ (span_digits s).2 ∧ all_digits (span_digits s).1 = true.
Proof.
  induction s as [|c s [IH1 IH2]]; [done|]. cbn [span_digits].
  destruct (is_digit c) eqn:Hc; [|done].
  destruct (span_digits s) as [ds r]. cbn in *. rewrite Hc, IH2.
  split; [|done]. by rewrite app_cons, <- IH1.
Qed.

Lemma span_digits_all ds e :
  all_digits ds = true → at_dollar e = true → span_digits (ds +:+ e) = (ds, e).
Proof.
  intros Hds He. induction ds as [|c ds IH].
  - rewrite app_nil_l. by destruct (at_dollar_inv _ He) as [->| ->].
  - cbn in Hds. apply andb_true_iff in Hds as [Hc Hds].
    rewrite app_cons. cbn [span_digits]. by rewrite Hc, IH.
Qed.

Lemma match_digits_eol_Some s m :
  match_digits_eol s = Some m →
  ∃ e, s = m +:+ e ∧ at_dollar e = true ∧ all_digits m = true ∧ m ≠ "".
Proof.
  unfold match_digits_eol. destruct (span_digits_sound s) as [Hs Hall].
  destruct (span_digits s) as [ds r]. cbn in *.
  destruct ds as [|c ds]; [done|]. destruct (at_dollar r) eqn:Hr; [|done].
  intros [= <-]. by exists r.
Qed.

Lemma match_digits_eol_complete m e :
  m ≠ "" → all_digits m = true → at_dollar e = true →
  match_digits_eol (m +:+ e) = Some m.
Proof.
  intros Hm Hall He. unfold match_digits_eol. rewrite span_digits_all by done.
  destruct m; [done|]. by rewrite He.
Qed.

Lemma chomp_digits m : all_digits m = true → chomp m = m.
Proof.
  induction m as [|c m IH]; [done|]. cbn [all_digits].
  intros [Hc Hm]%andb_true_iff. destruct m as [|d m].
  - cbn. destruct (Ascii.eqb_spec c newline) as [->|]; [done|done].
  - change (chomp (String c (String d m))) with (String c (chomp (String d m))).
    by rewrite IH.
Qed.

Lemma chomp_newline m : chomp (m +:+ String newline "") = m.
Proof.
  induction m as [|c m IH]; [done|]. rewrite app_cons.
  destruct m as [|d m]; [done|].
  rewrite app_cons in *.
  change (chomp (String c (String d ?x))) with (String c (chomp (String d x))).
  by rewrite IH.
Qed.

Lemma chomp_split s : ∃ e, at_dollar e = true ∧ s = chomp s +:+ e.
Proof.
  induction s as [|c s (e & He & IH)]; [by exists ""|].
  destruct s as [|d s].
  - cbn. destruct (Ascii.eqb_spec c newline) as [->|].
    + by exists (String newline "").
    + exists "". by rewrite app_nil_r.
  - exists e. split; [done|].
    change (chomp (String c (String d s))) with (String c (chomp (String d s))).
    by rewrite app_cons, <- IH.
Qed.

Lemma trailing_digits_all s : all_digits (trailing_digits s) = true.
Proof.
  induction s as [|c s IH]; [done|]. cbn [trailing_digits].
  by destruct (all_digits (String c s)) eqn:E.
Qed.

Lemma trailing_digits_digits m : all_digits m = true → trailing_digits m = m.
Proof. destruct m; [done|]. cbn [trailing_digits]. by intros ->. Qed.

(** The trailing run really is a suffix, and the longest one: the character
    before it, if any, is not a digit. *)
Lemma trailing_digits_suffix s :
  ∃ p, s = p +:+ trailing_digits s ∧
       ∀ c, last_char p = Some c → is_digit c = false.
Proof.
  induction s as [|c s (p & Hp & Hmax)]; [by exists ""|].
  cbn [trailing_digits]. destruct (all_digits (String c s)) eqn:E.
  { by exists "". }
  exists (String c p). split; [by rewrite app_cons, <- Hp|].
  intros d. rewrite last_char_cons.
  destruct (last_char p) as [d'|] eqn:El; [intros [= <-]; by apply Hmax|].
  intros [= <-]. apply last_char_None in El as ->.
  rewrite app_nil_l in Hp. cbn [all_digits] in E.
  rewrite Hp, trailing_digits_all, andb_true_r in E. done.
Qed.

(** What the search finds is the trailing run of digits of the subject with
    one final newline set aside. *)
Lemma re_search_digit_run s :
  re_search_digits_eol s =
  match trailing_digits (chomp s) with
  | EmptyString => None
  | String _ _ as digits => Some digits
  end.
Proof.
  induction s as [|c s IH]; [done|]. cbn [re_search_digits_eol].
  destruct (match_digits_eol (String c s)) as [m|] eqn:Hm.
  - apply match_digits_eol_Some in Hm as (e & -> & He & Hall & Hne).
    destruct (at_dollar_inv _ He) as [->| ->].
    + rewrite app_nil_r, chomp_digits, trailing_digits_digits by done.
      by destruct m.
    + rewrite chomp_newline, trailing_digits_digits by done. by destruct m.
  - rewrite IH. destruct s as [|d s].
    + cbn [chomp]. destruct (Ascii.eqb_spec c newline) as [->|]; [done|].
      cbn. destruct (is_digit c) eqn:Hc; [|done].
      unfold match_digits_eol in Hm. cbn [span_digits] in Hm.
      by rewrite Hc in Hm.
    + change (chomp (String c (String d s))) with (String c (chomp (String d s))).
      cbn [trailing_digits].
      destruct (all_digits (String c (chomp (String d s)))) eqn:Hall; [|done].
      destruct (chomp_split (String d s)) as (e & He & Hsplit).
      rewrite Hsplit, <- app_cons in Hm.
      by rewrite match_digits_eol_complete in Hm.
Qed.

Lemma re_search_digits_eol_Some s digits :
  re_search_digits_eol s = Some digits →
  digits ≠ "" ∧ all_digits digits = true ∧ digits = trailing_digits (chomp s).
Proof.
  rewrite re_search_digit_run. pose proof (trailing_digits_all (chomp s)) as H.
  destruct (trailing_digits (chomp s)); [done|]. by intros [= <-].
Qed.

(** A subject that does not end with a newline: the plain trailing run. *)
Lemma chomp_id s :
  (∀ c, last_char s = Some c → c ≠ newline) → chomp s = s.
Proof.
  induction s as [|c s IH]; [done|]. intros H. destruct s as [|d s].
  - cbn. destruct (Ascii.eqb_spec c newline) as [->|]; [|done].
    by destruct (H newline).
  - change (chomp (String c (String d s))) with (String c (chomp (String d s))).
    rewrite IH; [done|]. intros x Hx. apply H. rewrite last_char_cons. by rewrite Hx.
Qed.

(** A run of digits ends with a digit, which is neither ['d'] nor ['.']. *)
Lemma digits_last_char digits :
  digits ≠ "" → all_digits digits = true →
  ∃ c, last_char digits = Some c ∧ is_digit c = true.
Proof.
  induction digits as [|c ds IH]; [done|]. intros _.
  cbn [all_digits]. intros [Hc Hds]%andb_true_iff. rewrite last_char_cons.
  destruct ds as [|d ds]; [by exists c|].
  destruct IH as (x & -> & Hx); [done..|]. by exists x.
Qed.

Lemma endswith_digits_undefined q digits :
  digits ≠ "" → all_digits digits = true →
  endswith (q +:+ digits) "undefined" = false ∧ endswith (q +:+ digits) "." = false.
Proof.
  intros Hne Hall. destruct (digits_last_char _ Hne Hall) as (c & Hc & Hd).
  split.
  - destruct (endswith _ "undefined") eqn:E; [|done].
    apply endswith_last_char with (c := "d"%char) in E; [|done].
    rewrite last_char_app, Hc in E by done. by injection E as ->.
  - destruct (endswith _ ".") eqn:E; [|done].
    apply endswith_last_char with (c := "."%char) in E; [|done].
    rewrite last_char_app, Hc in E by done. by injection E as ->.
Qed.

(** A tag with a trailing run of digits does not end with a newline. *)
Lemma chomp_trailing_digits s : trailing_digits s ≠ "" → chomp s = s.
Proof.
  intros Hne. apply chomp_id. intros c Hc ->.
  destruct (trailing_digits_suffix s) as (p & Hp & _).
  destruct (digits_last_char _ Hne (trailing_digits_all s)) as (d & Hd & Hdigit).
  rewrite Hp, last_char_app, Hd in Hc by done. by injection Hc as ->.
Qed.

End PyStrFacts.

(** * Facts about values *)

Module PyFacts.
Import Py.

Lemma lookup_size_ne_0 {K} `{Countable K} {A} (d : gmap K A) k x :
  d !! k = Some x → Nat.eqb (size d) 0 = false.
Proof.
  intros Hk. apply Nat.eqb_neq. intros ->%map_size_empty_iff.
  by rewrite lookup_empty in Hk.
Qed.

Lemma py_truthy_lookup (d : gmap string json) k x :
  d !! k = Some x → py_truthy (JDict d) = true.
Proof. intros Hk. cbn. by rewrite (lookup_size_ne_0 _ _ _ Hk). Qed.

Lemma dict_get_Some {K} `{Countable K} (d : gmap K json) k x :
  d !! k = Some x → dict_get d k = x.
Proof. unfold dict_get. by intros ->. Qed.

Lemma dict_get_None {K} `{Countable K} (d : gmap K json) k :
  d !! k = None → dict_get d k = JNull.
Proof. unfold dict_get. by intros ->. Qed.

Lemma bind_Ok {A B} (a : A) (f : A → result B) : (Ok a ≫= f) = f a.
Proof. reflexivity. Qed.

Lemma bind_Raise {A B} e (f : A → result B) : (Raise e ≫= f) = Raise e.
Proof. reflexivity. Qed.

Lemma fmap_Ok {A B} (f : A → B) (a : A) : f <$> Ok a = Ok (f a).
Proof. reflexivity. Qed.

End PyFacts.

(** * [release_url] and its two fixes *)

Module ReleaseUrl.
Import Py Coordinator Update PyStr PyStrFacts PyFacts.

Lemma py_and_endswith_str l suf :
  suf ≠ "" → py_and_endswith (JStr l) suf = Ok (endswith l suf).
Proof.
  intros Hsuf. unfold py_and_endswith. cbn [py_truthy].
  destruct (String.eqb_spec l "") as [->|]; [|done]. by destruct suf.
Qed.

(** A link on which neither test fires goes through unchanged, whatever the
    tag. *)
Lemma release_url_fixup_fixed link tag :
  py_and_endswith link "undefined" = Ok false →
  py_and_endswith link "." = Ok false →
  release_url_fixup link tag = Ok link.
Proof. unfold release_url_fixup. by intros -> ->. Qed.

Lemma release_url_fixup_str link tag :
  release_url_fixup (JStr link) (JStr tag) = Ok (JStr (Spec.fixed_link link tag)).
Proof.
  unfold release_url_fixup, Spec.fixed_link, Spec.digit_run.
  rewrite !py_and_endswith_str, bind_Ok by done.
  destruct (endswith link "undefined"); [|rewrite bind_Ok; destruct (endswith link ".")];
    cbn [re_search_trailing_digits py_replace py_iadd_str]; rewrite ?bind_Ok;
    rewrite ?re_search_digit_run; try done.
  - by destruct (trailing_digits (chomp tag)).
  - destruct (trailing_digits (chomp tag)); [|done]. by rewrite app_nil_r.
Qed.

(** After either fix has fired, the link ends with a digit. *)
Lemma fixed_link_settled q digits tag :
  digits ≠ "" → all_digits digits = true →
  release_url_fixup (JStr (q +:+ digits)) tag = Ok (JStr (q +:+ digits)).
Proof.
  intros Hne Hall.
  destruct (endswith_digits_undefined q digits Hne Hall) as [H1 H2].
  apply release_url_fixup_fixed; by rewrite py_and_endswith_str, ?H1, ?H2 by done.
Qed.

(** C8: the release-URL fixup leaves alone every link that ends with neither
    "undefined" nor "."; and for every link and tag, applying the fixup to
    its own result gives that result again (a raised exception included). *)
Theorem release_url_fixup_idempotent :
  (∀ (link : string) (tag : json),
      endswith link "undefined" = false → endswith link "." = false →
      release_url_fixup (JStr link) tag = Ok (JStr link)) ∧
  (∀ link tag : json,
      (release_url_fixup link tag ≫= λ link', release_url_fixup link' tag)
      = release_url_fixup link tag).
Proof.
  split.
  { intros link tag H1 H2.
    apply release_url_fixup_fixed; by rewrite py_and_endswith_str, ?H1, ?H2 by done. }
  intros link tag.
  destruct (release_url_fixup link tag) as [link'|e] eqn:Hfix; [|done].
  rewrite bind_Ok. revert Hfix. unfold release_url_fixup at 1.
  destruct (py_and_endswith link "undefined") as [[|]|] eqn:Hu; rewrite ?bind_Ok, ?bind_Raise;
    [| |done].
  - destruct link as [| | |l| |]; try (unfold py_and_endswith in Hu; by destruct (py_truthy _)).
    rewrite py_and_endswith_str in Hu by done. injection Hu as Hu.
    destruct (re_search_trailing_digits tag) as [[digits|]|] eqn:Hre; rewrite ?bind_Ok;
      [| |done].
    + cbn [py_replace]. rewrite fmap_Ok. intros [= <-].
      destruct tag; try done. cbn in Hre. injection Hre as Hre.
      apply re_search_digits_eol_Some in Hre as (Hne & Hall & _).
      destruct (endswith_inv _ _ Hu) as [p ->].
      destruct (str_replace_undefined_suffix digits p) as [q Hq].
      unfold str_replace in Hq. rewrite Hq.
      by apply fixed_link_settled.
    + intros [= <-]. unfold release_url_fixup.
      by rewrite (py_and_endswith_str l "undefined"), Hu, bind_Ok, Hre by done.
  - destruct (py_and_endswith link ".") as [[|]|] eqn:Hd; rewrite ?bind_Ok, ?bind_Raise;
      [| |done].
    + destruct link as [| | |l| |]; try (unfold py_and_endswith in Hd; by destruct (py_truthy _)).
      destruct (re_search_trailing_digits tag) as [[digits|]|] eqn:Hre; rewrite ?bind_Ok;
        [| |done].
      * cbn [py_iadd_str]. intros [= <-].
        destruct tag; try done. cbn in Hre. injection Hre as Hre.
        apply re_search_digits_eol_Some in Hre as (Hne & Hall & _).
        by apply fixed_link_settled.
      * intros [= <-]. unfold release_url_fixup.
        by rewrite Hu, bind_Ok, Hd, bind_Ok, Hre.
    + intros [= <-]. by apply release_url_fixup_fixed.
Qed.

Lemma release_url_fixup_idempotent_witness :
  release_url_fixup (JStr "https://github.com/o/r/releases/tag/v1.2.2") JNull
  = Ok (JStr "https://github.com/o/r/releases/tag/v1.2.2").
Proof. apply (proj1 release_url_fixup_idempotent); reflexivity. Defined.


(** ** The chosen link and tag *)








(** The choice on a record with an update available and a string link. *)
Lemma chosen_link_and_tag_update record link :
  Spec.update_available record = true →
  Spec.field record ["result"; "link"] = JStr link →
  py_truthy record = true ∧
  chosen_link_and_tag record = Ok (JStr link, Spec.field record ["result"; "tag"]).
Proof.
  unfold Spec.update_available. destruct record as [| | | | |d]; try done.
  unfold chosen_link_and_tag. cbn [Spec.field py_get]. rewrite bind_Ok.
  destruct (d !! "updateAvailable") as [u|] eqn:Hu; [|done]. simpl. intros ->.
  destruct (d !! "result") as [[| | | | |res]|]; try done. simpl.
  destruct (res !! "link") as [l|]; [|done]. simpl. intros ->.
  split; [exact (py_truthy_lookup _ _ _ Hu)|done].
Qed.

Lemma release_url_fixup_not_str link tag :
  endswith link "undefined" || endswith link "." = true →
  Spec.is_str tag = false →
  release_url_fixup (JStr link) tag = Raise TypeError.
Proof.
  intros Hsuf Htag. unfold release_url_fixup.
  assert (re_search_trailing_digits tag = Raise TypeError) as Hre
    by by destruct tag.
  rewrite (py_and_endswith_str link "undefined"), bind_Ok by done.
  destruct (endswith link "undefined"); [by rewrite Hre|].
  rewrite (py_and_endswith_str link "."), bind_Ok by done.
  cbn [orb] in Hsuf. by rewrite Hsuf, Hre.
Qed.

(** C9: [release_url] returns a value only if the chosen tag is a string
    whenever the chosen link ends with "undefined" or ".": on a record with
    an update available whose [result.link] ends with either suffix and whose
    [result.tag] is not a string, it raises [TypeError]; such records exist,
    with [result.tag] absent, for both suffixes. *)
Theorem release_url_needs_string_tag :
  (∀ coordinator self record link,
      data coordinator !! _container_name self = Some record →
      Spec.update_available record = true →
      Spec.field record ["result"; "link"] = JStr link →
      endswith link "undefined" || endswith link "." = true →
      Spec.is_str (Spec.field record ["result"; "tag"]) = false →
      release_url coordinator self = Raise TypeError) ∧
  (∀ suffix, suffix = "undefined" ∨ suffix = "." →
     ∃ coordinator self record link,
       data coordinator !! _container_name self = Some record ∧
       Spec.update_available record = true ∧
       Spec.field record ["result"; "link"] = JStr link ∧
       endswith link suffix = true ∧
       Spec.field record ["result"; "tag"] = JNull ∧
       release_url coordinator self = Raise TypeError).
Proof.
  split.
  - intros coordinator self record link Hrec Hup Hlink Hsuf Htag.
    destruct (chosen_link_and_tag_update _ _ Hup Hlink) as [Htruthy Hchosen].
    unfold release_url.
    rewrite (dict_get_Some _ _ _ Hrec), Htruthy, Hchosen, bind_Ok.
    by apply release_url_fixup_not_str.
  - intros suffix [-> | ->].
    + by exists (Examples.watching Examples.untagged_undefined), (Examples.entity "app"),
        Examples.untagged_undefined, Examples.download_undefined.
    + by exists (Examples.watching Examples.untagged_dotted), (Examples.entity "app"),
        Examples.untagged_dotted, "https://github.com/o/r/releases/tag/v2.0.".
Qed.

Lemma release_url_needs_string_tag_witness :
  release_url (Examples.watching Examples.untagged_undefined) (Examples.entity "app")
  = Raise TypeError.
Proof.
  apply (proj1 release_url_needs_string_tag
           (Examples.watching Examples.untagged_undefined) (Examples.entity "app")
           Examples.untagged_undefined Examples.download_undefined);
    reflexivity.
Defined.

(** C10: when the chosen link ends with "undefined" and the chosen tag has
    a trailing run of decimal digits, the first fix replaces every occurrence
    of "undefined" in the link by those digits: the link is cut at all its
    occurrences (there is more than one piece, and no piece holds another
    occurrence) and the pieces are joined again with the digits. A link with
    two occurrences has both replaced. *)
Theorem release_url_fixup_every_occurrence :
  (∀ link tag digits,
      endswith link "undefined" = true →
      trailing_digits tag = digits → digits ≠ "" →
      ∃ pieces,
        2 ≤ length pieces ∧
        link = join "undefined" pieces ∧
        Forall (λ p, contains p "undefined" = false) pieces ∧
        release_url_fixup (JStr link) (JStr tag) = Ok (JStr (join digits pieces))) ∧
  release_url_fixup (JStr Examples.twice_undefined) (JStr "v1.2")
  = Ok (JStr "https://github.com/2/r/releases/tag/v1.2").
Proof.
  split; [|reflexivity].
  intros link tag digits Hsuf Hrun Hne.
  destruct (str_replace_pieces "undefined" digits link) as (pieces & Hnil & Hlink & Hrep & Hall);
    [done|].
  exists pieces. split_and!; [| done.. |].
  - destruct pieces as [|p [|p' pieces]]; [done| |simpl; lia].
    apply Forall_inv in Hall. cbn [join] in Hlink. subst p.
    destruct (endswith_inv _ _ Hsuf) as [q ->]. by rewrite contains_suffix in Hall.
  - rewrite release_url_fixup_str. unfold Spec.fixed_link, Spec.digit_run.
    rewrite Hsuf, chomp_trailing_digits, Hrun by by rewrite Hrun.
    rewrite <- Hrep. by destruct digits.
Qed.

Lemma release_url_fixup_every_occurrence_witness :
  ∃ pieces,
    2 ≤ length pieces ∧
    Examples.twice_undefined = join "undefined" pieces ∧
    Forall (λ p, contains p "undefined" = false) pieces ∧
    release_url_fixup (JStr Examples.twice_undefined) (JStr "v1.2")
    = Ok (JStr (join "2" pieces)).
Proof.
  apply (proj1 release_url_fixup_every_occurrence Examples.twice_undefined "v1.2" "2");
    [reflexivity | reflexivity | discriminate].
Defined.

End ReleaseUrl.

(** * [installed_version] and [latest_version] *)

Module Versions.
Import Py Coordinator Update PyFacts.

Lemma py_get_dict d k dflt : py_get (JDict d) k dflt = Ok (default dflt (d !! k)).
Proof. reflexivity. Qed.

(** Reading a path with [.get(k, {})] at every step but the last agrees with
    [Spec.field] as long as the steps that are present are objects. *)
Lemma py_get_field2 record k1 k2 :
  Spec.objects_along record [k1] = true →
  (x ← py_get record k1 (JDict ∅); py_get x k2 JNull)
  = Ok (Spec.field record [k1; k2]).
Proof.
  destruct record as [| | | | |d]; try done. cbn.
  by destruct (d !! k1) as [[| | | | |d1]|].
Qed.

Lemma py_get_field3 record k1 k2 k3 :
  Spec.objects_along record [k1; k2] = true →
  (x ← py_get record k1 (JDict ∅); y ← py_get x k2 (JDict ∅); py_get y k3 JNull)
  = Ok (Spec.field record [k1; k2; k3]).
Proof.
  destruct record as [| | | | |d]; try done. cbn.
  destruct (d !! k1) as [[| | | | |d1]|]; try done. cbn.
  by destruct (d1 !! k2) as [[| | | | |d2]|].
Qed.

(** C3: when the container key is absent from the snapshot, [latest_version]
    is absent; for a record present in the snapshot, [latest_version] is
    [installed_version] when [updateAvailable] is false (and that is
    [record.image.tag.value]), and [record.result.tag] when [updateAvailable]
    is true. *)
Theorem latest_version_cases :
  (∀ coordinator self,
      data coordinator !! _container_name self = None →
      latest_version coordinator self = Ok JNull) ∧
  (∀ coordinator self record,
      data coordinator !! _container_name self = Some record →
      Spec.update_available record = false →
      latest_version coordinator self = installed_version coordinator self ∧
      (Spec.objects_along record ["image"; "tag"] = true →
       latest_version coordinator self
       = Ok (Spec.field record ["image"; "tag"; "value"]))) ∧
  (∀ coordinator self record,
      data coordinator !! _container_name self = Some record →
      Spec.update_available record = true →
      Spec.objects_along record ["result"] = true →
      latest_version coordinator self = Ok (Spec.field record ["result"; "tag"])).
Proof.
  split_and!.
  - intros coordinator self Hrec. unfold latest_version.
    by rewrite (dict_get_None _ _ Hrec).
  - intros coordinator self record Hrec Hup.
    assert (latest_version coordinator self = installed_version coordinator self) as Heq.
    { unfold latest_version, installed_version. rewrite (dict_get_Some _ _ _ Hrec).
      destruct (py_truthy record); [|done].
      destruct record as [| | | | |d]; try done.
      unfold Spec.update_available in Hup. cbn [Spec.field] in Hup.
      rewrite (py_get_dict d "updateAvailable"), bind_Ok.
      destruct (d !! "updateAvailable") as [u|]; cbn [from_option id]; by rewrite ?Hup. }
    split; [done|]. intros Hobj. rewrite Heq. unfold installed_version.
    rewrite (dict_get_Some _ _ _ Hrec), py_get_field3 by done.
    destruct (py_truthy record) eqn:Htruthy; [done|].
    destruct record as [| | | | |d]; try done. cbn in Htruthy.
    apply negb_false_iff, Nat.eqb_eq, map_size_empty_iff in Htruthy as ->.
    cbn. by rewrite lookup_empty.
  - intros coordinator self record Hrec Hup Hobj. unfold latest_version.
    rewrite (dict_get_Some _ _ _ Hrec).
    unfold Spec.update_available in Hup.
    destruct record as [| | | | |d]; try done. cbn [Spec.field] in Hup.
    destruct (d !! "updateAvailable") as [u|] eqn:Hu; [|done].
    rewrite (py_truthy_lookup _ _ _ Hu), (py_get_dict d "updateAvailable"), Hu, bind_Ok.
    cbn [from_option id]. rewrite Hup. by apply py_get_field2.
Qed.

Lemma latest_version_cases_witness :
  latest_version (Examples.watching Examples.prerelease) (Examples.entity "app")
  = Ok (JStr "v1.2.3") ∧
  latest_version (Examples.watching Examples.up_to_date) (Examples.entity "app")
  = Ok (JStr "v1.2.2") ∧
  latest_version (Examples.watching Examples.up_to_date) (Examples.entity "other")
  = Ok JNull.
Proof.
  destruct latest_version_cases as (Habsent & Hsame & Hnew).
  split_and!.
  - apply (Hnew (Examples.watching Examples.prerelease) (Examples.entity "app")
             Examples.prerelease); reflexivity.
  - apply (Hsame (Examples.watching Examples.up_to_date) (Examples.entity "app")
             Examples.up_to_date); reflexivity.
  - apply (Habsent (Examples.watching Examples.up_to_date) (Examples.entity "other")).
    reflexivity.
Defined.

End Versions.

(** * The refresh of the coordinator *)

Module Refresh.
Import Py Coordinator Update PyFacts.

Lemma name_of_Some record n :
  Spec.name_of record = Some n →
  py_getitem record "name" = Ok (JStr n).
Proof.
  unfold Spec.name_of. destruct record as [| | | | |d]; try done. cbn.
  by destruct (d !! "name") as [[| | |s| |]|]; intros; simplify_eq.
Qed.

Lemma last_named_cons n record records :
  Spec.last_named n (record :: records) =
  match Spec.last_named n records with
  | Some r => Some r
  | None => if decide (Spec.name_of record = Some n) then Some record else None
  end.
Proof.
  unfold Spec.last_named. rewrite filter_cons.
  destruct (decide (Spec.name_of record = Some n)); [|by destruct (last _)].
  apply last_cons.
Qed.

Lemma last_named_is_Some n records :
  is_Some (Spec.last_named n records) ↔ n ∈ Spec.names records.
Proof.
  unfold Spec.last_named, Spec.names.
  rewrite last_is_Some, list_elem_of_omap. split.
  - intros Hne. destruct (filter _ records) as [|r l] eqn:E; [done|].
    assert (r ∈ filter (λ r, Spec.name_of r = Some n) records) as Hr
      by (rewrite E; left).
    apply list_elem_of_filter in Hr as [? ?]. by exists r.
  - intros (r & Hr & Hn) E.
    assert (r ∈ filter (λ r, Spec.name_of r = Some n) records) as Hin
      by by apply list_elem_of_filter.
    rewrite E in Hin. by apply not_elem_of_nil in Hin.
Qed.

(** The dictionary comprehension on an array of named records: every record
    overwrites what its name held before. *)
Lemma dict_by_name_records acc records :
  Forall (λ r, is_Some (Spec.name_of r)) records →
  ∃ snapshot,
    dict_by_name acc records = Ok snapshot ∧
    ∀ k, snapshot !! k =
         match k with
         | KStr n =>
             match Spec.last_named n records with
             | Some r => Some r
             | None => acc !! k
             end
         | _ => acc !! k
         end.
Proof.
  intros Hall. revert acc.
  induction Hall as [|record records [n Hn] _ IH]; intros acc.
  { exists acc. split; [done|]. by intros [| |]. }
  cbn [dict_by_name]. rewrite (name_of_Some _ _ Hn), bind_Ok. cbn [py_hash_key].
  rewrite bind_Ok. destruct (IH (<[KStr n := record]> acc)) as (snapshot & -> & Hlook).
  exists snapshot. split; [done|]. intros k. rewrite Hlook.
  destruct k as [|z|m]; [by rewrite lookup_insert_ne..|].
  rewrite last_named_cons. destruct (Spec.last_named m records); [done|].
  rewrite Hn. destruct (decide (Some n = Some m)) as [[= ->]|Hne].
  - by rewrite lookup_insert_eq.
  - rewrite lookup_insert_ne; [done|]. by intros [= ->].
Qed.

(** C2: a JSON array of container records is turned into a mapping with
    exactly one entry per distinct [name] (its keys are the names that occur,
    and it has as many entries as there are distinct names), where each name
    is bound to the last record of the array that carries it. *)
Theorem snapshot_one_entry_per_name self net resp records :
  on_get net (_url self) = Responds resp →
  (status resp < 400)%Z →
  json_body resp = Ok (JList records) →
  Forall (λ r, is_Some (Spec.name_of r)) records →
  ∃ snapshot,
    _async_update_data self net = ([HttpGet (_url self)], Ok snapshot) ∧
    dom snapshot = list_to_set (KStr <$> Spec.names records) ∧
    size snapshot = length (remove_dups (Spec.names records)) ∧
    ∀ n, snapshot !! KStr n = Spec.last_named n records.
Proof.
  intros Hget Hstatus Hbody Hall.
  destruct (dict_by_name_records ∅ records Hall) as (snapshot & Hsnap & Hlook).
  assert (dom snapshot = list_to_set (KStr <$> Spec.names records)) as Hdom.
  { apply set_eq. intros k.
    rewrite elem_of_dom, elem_of_list_to_set, list_elem_of_fmap, Hlook.
    destruct k as [|z|n]; rewrite ?lookup_empty.
    - split; [by intros []|by intros (? & ? & ?)].
    - split; [by intros []|by intros (? & ? & ?)].
    - destruct (Spec.last_named n records) as [r|] eqn:E.
      + split; [intros _|by eexists]. exists n. split; [done|].
        apply last_named_is_Some. by rewrite E.
      + split; [by intros []|].
        intros (m & [= <-] & Hm). apply last_named_is_Some in Hm.
        rewrite E in Hm. by destruct Hm. }
  exists snapshot. split_and!; [|done| |].
  - unfold _async_update_data, _async_fetch_data, http_get, raise_for_status.
    rewrite Hget. cbn. apply Z.leb_gt in Hstatus. rewrite Hstatus. cbn.
    rewrite Hbody. cbn. by rewrite Hsnap.
  - rewrite <- size_dom, Hdom.
    assert (list_to_set (C := gset hkey) (KStr <$> Spec.names records)
            = list_to_set (KStr <$> remove_dups (Spec.names records))) as ->.
    { apply set_eq. intros k.
      rewrite !elem_of_list_to_set, !list_elem_of_fmap.
      by setoid_rewrite elem_of_remove_dups. }
    rewrite size_list_to_set, length_fmap; [done|].
    apply NoDup_fmap_2; [apply _|apply NoDup_remove_dups].
  - intros n. rewrite Hlook. by destruct (Spec.last_named n records).
Qed.


Lemma snapshot_one_entry_per_name_witness :
  let self := Examples.watching Examples.up_to_date in
  let net := Examples.answering 200 (JList Examples.app_twice) in
  ∃ snapshot,
    _async_update_data self net = ([HttpGet (_url self)], Ok snapshot) ∧
    dom snapshot = list_to_set (KStr <$> Spec.names Examples.app_twice) ∧
    size snapshot = length (remove_dups (Spec.names Examples.app_twice)) ∧
    ∀ n, snapshot !! KStr n = Spec.last_named n Examples.app_twice.
Proof.
  apply (snapshot_one_entry_per_name
           (Examples.watching Examples.up_to_date)
           (Examples.answering 200 (JList Examples.app_twice))
           {| status := 200; json_body := Ok (JList Examples.app_twice);
              text_body := Ok "" |}
           Examples.app_twice);
    [reflexivity | reflexivity | reflexivity |].
  repeat (apply Forall_cons_2; [by eexists|]). apply Forall_nil_2.
Defined.

(** On the array of the example, [app] is bound to its second record. *)
Example app_twice_last_wins :
  Spec.names Examples.app_twice = ["app"; "db"; "app"] ∧
  Spec.last_named "app" Examples.app_twice = Some (Examples.named "app" "v2").
Proof. by vm_compute. Qed.

(** ** A refresh that fails *)

(** Whatever is raised inside [_async_update_data] leaves it as
    [UpdateFailed]. *)
Lemma _async_update_data_raises self net t e :
  _async_update_data self net = (t, Raise e) →
  ∃ msg cause, e = UpdateFailed msg cause.
Proof.
  unfold _async_update_data, try_except.
  destruct (_ ≫= _) as [t0 [snapshot|cause]]; [done|].
  destruct (is_TimeoutError cause); [|destruct (is_ClientError cause)];
    cbn; intros [= _ <-]; by eexists _, _.
Qed.

(** C4: when a refresh fails - the request raises (a timeout, a client error
    or anything else), or anything is raised while the answer is read and
    indexed - the only exception that leaves [_async_update_data] is
    [UpdateFailed]; the refresh then leaves the stored snapshot as it was,
    changes nothing but [last_update_success], which becomes false, and every
    entity reads [available] as false. *)
Theorem refresh_failure_keeps_snapshot :
  (∀ self net cause,
      on_get net (_url self) = Fails cause →
      ∃ t, _async_update_data self net
           = (t, Raise (UpdateFailed (Spec.failure_message cause) cause))) ∧
  (∀ self net t e,
      _async_update_data self net = (t, Raise e) →
      (∃ msg cause, e = UpdateFailed msg cause) ∧
      refresh self net
      = (t, {| _url := _url self; _instance_name := _instance_name self;
               data := data self; last_update_success := false |}) ∧
      data (refresh self net).2 = data self ∧
      last_update_success (refresh self net).2 = false ∧
      ∀ entity, available (refresh self net).2 entity = false).
Proof.
  split.
  - intros self net cause Hget.
    unfold _async_update_data, _async_fetch_data, http_get, Spec.failure_message.
    rewrite Hget. cbn.
    destruct (is_TimeoutError cause); [|destruct (is_ClientError cause)];
      by eexists.
  - intros self net t e Hfail. split; [by eapply _async_update_data_raises|].
    unfold available, refresh. by rewrite Hfail.
Qed.

Lemma refresh_failure_keeps_snapshot_witness :
  let self := Examples.watching Examples.up_to_date in
  let net := Examples.failing TimeoutError in
  data (refresh self net).2 = data self ∧
  last_update_success (refresh self net).2 = false ∧
  available (refresh self net).2 (Examples.entity "app") = false.
Proof.
  pose (self := Examples.watching Examples.up_to_date).
  pose (net := Examples.failing TimeoutError).
  destruct (proj2 refresh_failure_keeps_snapshot self net
              [HttpGet (_url self); Log ERROR "Timeout fetching data from WUD: %s"]
              (UpdateFailed "Timeout fetching data from WUD: " TimeoutError)
              eq_refl) as (_ & _ & Hdata & Hflag & Havailable).
  split_and!; [exact Hdata | exact Hflag | exact (Havailable _)].
Defined.

End Refresh.

(** * Coroutines of the entity: release notes and install *)

Module IoFacts.
Import Py.

Lemma bind_lift_Ok {A B} (a : A) (f : A → io B) : (lift (Ok a) ≫= f) = f a.
Proof. unfold lift, mbind, io_bind. by destruct (f a). Qed.

Lemma bind_log {B} lvl fmt (f : unit → io B) :
  (log lvl fmt ≫= f) = (Log lvl fmt :: (f ()).1, (f ()).2).
Proof. unfold log, mbind, io_bind. by destruct (f ()). Qed.

End IoFacts.

Module ReleaseNotes.
Import Py Coordinator Update PyFacts IoFacts.

(** The request block issues exactly one request, to the address it is
    given. *)
Lemma fetch_release_body_request net api_url url :
  HttpGet url ∈ (fetch_release_body net api_url).1 → url = api_url.
Proof.
  unfold fetch_release_body, http_get, raise_for_status.
  destruct (on_get net api_url) as [r|e]; cbn.
  - destruct (status r =? 403)%Z; cbn.
    { rewrite !elem_of_cons, elem_of_nil. by intros [[= ->]|[|]]. }
    destruct (400 <=? status r)%Z; cbn.
    { rewrite !elem_of_cons, elem_of_nil. by intros [[= ->]|[|]]. }
    destruct (json_body r) as [body|e]; cbn.
    + destruct (py_get body "body" JNull) as [|e]; cbn.
      { rewrite !elem_of_cons, elem_of_nil. by intros [[= ->]|]. }
      destruct (is_TimeoutError e); [|destruct (is_ClientError e)]; cbn;
        rewrite !elem_of_cons, elem_of_nil; by intros [[= ->]|[|]].
    + destruct (is_TimeoutError e); [|destruct (is_ClientError e)]; cbn;
        rewrite !elem_of_cons, elem_of_nil; by intros [[= ->]|[|]].
  - destruct (is_TimeoutError e); [|destruct (is_ClientError e)]; cbn;
      rewrite !elem_of_cons, elem_of_nil; by intros [[= ->]|[|]].
Qed.

(** A request seen in the trace of [async_release_notes] is the one of its
    request block, which then decides the result. *)
Lemma async_release_notes_request coordinator self net url :
  HttpGet url ∈ (async_release_notes coordinator self net).1 →
  async_release_notes coordinator self net = fetch_release_body net url.
Proof.
  unfold async_release_notes.
  destruct (negb _); [by intros ?%elem_of_nil|].
  destruct (release_url coordinator self) as [link|e];
    [rewrite bind_lift_Ok|by intros ?%elem_of_nil].
  destruct (if py_truthy link then _ else _) as [[|]|e];
    [rewrite bind_lift_Ok| |by intros ?%elem_of_nil].
  - destruct (github_api_url link) as [[api_url|]|e];
      [rewrite bind_lift_Ok| |by intros ?%elem_of_nil].
    + by intros ->%fetch_release_body_request.
    + rewrite bind_lift_Ok. cbn. rewrite !elem_of_cons, elem_of_nil. by intros [|].
  - rewrite bind_lift_Ok. cbn. rewrite !elem_of_cons, elem_of_nil. by intros [|].
Qed.

(** C6: every 403 answer of the GitHub API to the request of a release-notes
    fetch gives an absent result, with an error logged; nothing is raised. *)
Theorem release_notes_rate_limited coordinator self net url r :
  HttpGet url ∈ (async_release_notes coordinator self net).1 →
  on_get net url = Responds r →
  status r = 403%Z →
  async_release_notes coordinator self net
  = ([HttpGet url; Log ERROR "GitHub API rate limit exceeded"], Ok JNull).
Proof.
  intros Hreq Hget Hstatus. rewrite (async_release_notes_request _ _ _ _ Hreq).
  unfold fetch_release_body, http_get. rewrite Hget.
  destruct r as [st body text]. cbn in Hstatus. by subst st.
Qed.

Lemma release_notes_rate_limited_witness :
  async_release_notes (Examples.watching Examples.released) (Examples.entity "app")
    (Examples.answering 403 JNull)
  = ([HttpGet "https://api.github.com/repos/o/r/releases/tags/v1.2.3";
      Log ERROR "GitHub API rate limit exceeded"], Ok JNull).
Proof.
  apply (release_notes_rate_limited
           (Examples.watching Examples.released) (Examples.entity "app")
           (Examples.answering 403 JNull)
           "https://api.github.com/repos/o/r/releases/tags/v1.2.3"
           {| status := 403; json_body := Ok JNull; text_body := Ok "" |});
    [by vm_compute; left | reflexivity | reflexivity].
Defined.

(** C5, amended: every answer of the GitHub API with a status from 400 on
    other than 403 makes [raise_for_status] raise inside the request block;
    the client-error handler catches it, logs an error, and the fetch gives
    an absent result: nothing is raised to the caller. *)
Theorem release_notes_error_status_absent coordinator self net url r :
  HttpGet url ∈ (async_release_notes coordinator self net).1 →
  on_get net url = Responds r →
  (400 ≤ status r)%Z →
  status r ≠ 403%Z →
  raise_for_status r = Raise ClientError ∧
  async_release_notes coordinator self net
  = ([HttpGet url; Log ERROR "Error fetching release notes from GitHub API: %s"],
     Ok JNull).
Proof.
  intros Hreq Hget Hstatus Hne. unfold raise_for_status.
  apply Z.leb_le in Hstatus. apply Z.eqb_neq in Hne.
  split; [by rewrite Hstatus|].
  rewrite (async_release_notes_request _ _ _ _ Hreq).
  unfold fetch_release_body, http_get, raise_for_status.
  rewrite Hget. destruct r as [st body text]. cbn in *. by rewrite Hne, Hstatus.
Qed.

Lemma release_notes_error_status_absent_witness :
  async_release_notes (Examples.watching Examples.released) (Examples.entity "app")
    (Examples.answering 404 JNull)
  = ([HttpGet "https://api.github.com/repos/o/r/releases/tags/v1.2.3";
      Log ERROR "Error fetching release notes from GitHub API: %s"], Ok JNull).
Proof.
  apply (release_notes_error_status_absent
           (Examples.watching Examples.released) (Examples.entity "app")
           (Examples.answering 404 JNull)
           "https://api.github.com/repos/o/r/releases/tags/v1.2.3"
           {| status := 404; json_body := Ok JNull; text_body := Ok "" |});
    [by vm_compute; left | reflexivity | by vm_compute | discriminate].
Defined.

(** C5 as worded fails: on a 404 answer nothing is raised to the caller; the
    fetch returns the absent result. *)
Lemma release_notes_404_not_raised :
  let outcome :=
    async_release_notes (Examples.watching Examples.released) (Examples.entity "app")
      (Examples.answering 404 JNull) in
  HttpGet "https://api.github.com/repos/o/r/releases/tags/v1.2.3" ∈ outcome.1 ∧
  outcome.2 = Ok JNull ∧
  ∀ e, outcome.2 ≠ Raise e.
Proof. vm_compute. split_and!; [by left|done|done]. Qed.

End ReleaseNotes.

Module Install.
Import Py Coordinator Update PyFacts IoFacts.

(** C7, amended: for a container whose record is absent from the snapshot,
    or whose record lacks the label [wud.trigger.hass], install makes no
    network call. When the labels of the record can be looked into (the
    record is absent or empty, or it is an object whose [labels] is absent or
    an object), install logs an error and returns without raising: its trace
    holds the two log entries only. Otherwise the look-up of the label raises
    [AttributeError] after the opening entry, and no error is logged. *)
Theorem async_install_without_label coordinator self net :
  data coordinator !! _container_name self = None ∨
  (∃ record, data coordinator !! _container_name self = Some record ∧
             Spec.lacks_trigger_label record = true) →
  (∀ e, e ∈ (async_install coordinator self net).1 → Shape.is_request e = false) ∧
  (Spec.labels_readable (dict_get (data coordinator) (_container_name self)) = true →
   ∃ message,
     (message = "Container data not found for %s" ∨
      message = "HASS Trigger Label not found for %s") ∧
     async_install coordinator self net
     = ([Log INFO "Starting update for container %s"; Log ERROR message], Ok ())) ∧
  (Spec.labels_readable (dict_get (data coordinator) (_container_name self)) = false →
   async_install coordinator self net
   = ([Log INFO "Starting update for container %s"], Raise AttributeError)).
Proof.
  intros Hlacks.
  assert (async_install coordinator self net
          = if Spec.labels_readable (dict_get (data coordinator) (_container_name self))
            then ([Log INFO "Starting update for container %s";
                   Log ERROR (if py_truthy (dict_get (data coordinator)
                                              (_container_name self))
                              then "HASS Trigger Label not found for %s"
                              else "Container data not found for %s")], Ok ())
            else ([Log INFO "Starting update for container %s"], Raise AttributeError))
    as Hinstall.
  { unfold async_install. rewrite bind_log.
    destruct Hlacks as [Hrec|(record & Hrec & Hlabel)].
    { by rewrite (dict_get_None _ _ Hrec). }
    rewrite (dict_get_Some _ _ _ Hrec).
    destruct record as [| |z|s|l|d]; cbn [Spec.labels_readable];
      try (by destruct (py_truthy _)).
    destruct (py_truthy (JDict d)) eqn:Htruthy; cbn [negb].
    2:{ by destruct (d !! "labels") as [[| | | | |labels]|] eqn:Hlabels;
          try (by rewrite (py_truthy_lookup _ _ _ Hlabels) in Htruthy). }
    cbn in Hlabel. cbn [py_get].
    destruct (d !! "labels") as [[| | | | |labels]|]; try done.
    cbn [from_option id]. rewrite bind_lift_Ok. cbn [py_get].
    by destruct (labels !! "wud.trigger.hass"). }
  rewrite Hinstall. split_and!.
  - intros e. destruct (Spec.labels_readable _); cbn [fst].
    + by intros [->|[->|[]%elem_of_nil]%elem_of_cons]%elem_of_cons.
    + by intros [->|[]%elem_of_nil]%elem_of_cons.
  - intros ->. eexists. split; [|done]. destruct (py_truthy _); auto.
  - by intros ->.
Qed.

Lemma async_install_without_label_witness :
  ∃ message,
    (message = "Container data not found for %s" ∨
     message = "HASS Trigger Label not found for %s") ∧
    async_install (Examples.watching Examples.up_to_date) (Examples.entity "app")
      (Examples.answering 200 JNull)
    = ([Log INFO "Starting update for container %s"; Log ERROR message], Ok ()).
Proof.
  apply (proj1 (proj2 (async_install_without_label
                         (Examples.watching Examples.up_to_date) (Examples.entity "app")
                         (Examples.answering 200 JNull)
                         (or_intror (ex_intro _ Examples.up_to_date
                                       (conj eq_refl eq_refl)))))).
  reflexivity.
Defined.

(** C7 as worded fails on a record whose [labels] is null: the record lacks
    the label, yet install raises [AttributeError] and logs no error. *)
Lemma async_install_null_labels_raises :
  let coordinator := Examples.watching Examples.null_labels in
  let self := Examples.entity "app" in
  data coordinator !! _container_name self = Some Examples.null_labels ∧
  Spec.lacks_trigger_label Examples.null_labels = true ∧
  async_install coordinator self (Examples.answering 200 JNull)
  = ([Log INFO "Starting update for container %s"], Raise AttributeError).
Proof. by vm_compute. Qed.

End Install.

(** * More on the refresh: what a snapshot can hold, when it is built *)

Module SnapshotFacts.
Import Py Coordinator Update PyFacts.

Lemma indexable_key item :
  Shape.indexable item = true →
  ∃ k, (name ← py_getitem item "name"; py_hash_key name) = Ok k ∧
       Shape.keyed_by k item = true.
Proof.
  destruct item as [| | | | |d]; try done. cbn.
  destruct (d !! "name") as [[|b|z|s| |]|]; try done; intros _; cbn;
    eexists; split; try done; by apply bool_decide_eq_true.
Qed.

Lemma not_indexable_raises item :
  Shape.indexable item = false →
  (name ← py_getitem item "name"; py_hash_key name) = Raise KeyError ∨
  (name ← py_getitem item "name"; py_hash_key name) = Raise TypeError.
Proof.
  destruct item as [| | | | |d]; try (by right). cbn.
  destruct (d !! "name") as [[| | | | |]|]; try done; intros _; cbn; auto.
Qed.

Lemma dict_by_name_cons acc item items :
  dict_by_name acc (item :: items) =
  k ← (name ← py_getitem item "name"; py_hash_key name);
  dict_by_name (<[k := item]> acc) items.
Proof.
  cbn [dict_by_name]. destruct (py_getitem item "name"); [|done]. cbn.
  by destruct (py_hash_key _).
Qed.

(** The comprehension goes through exactly when every item can be filed. *)
Lemma dict_by_name_Ok acc items :
  forallb Shape.indexable items = true → ∃ m, dict_by_name acc items = Ok m.
Proof.
  revert acc. induction items as [|item items IH]; intros acc; [by eexists|].
  cbn [forallb]. intros [Hitem Hitems]%andb_true_iff.
  rewrite dict_by_name_cons.
  destruct (indexable_key _ Hitem) as (k & -> & _). cbn. by apply IH.
Qed.

Lemma dict_by_name_Raise acc items :
  forallb Shape.indexable items = false →
  dict_by_name acc items = Raise KeyError ∨ dict_by_name acc items = Raise TypeError.
Proof.
  revert acc. induction items as [|item items IH]; intros acc; [done|].
  cbn [forallb]. rewrite dict_by_name_cons.
  destruct (Shape.indexable item) eqn:Hitem.
  - destruct (indexable_key _ Hitem) as (k & -> & _). cbn. apply IH.
  - intros _. by destruct (not_indexable_raises _ Hitem) as [-> | ->]; [left|right].
Qed.

(** Every entry the comprehension makes is an object filed under its own
    name. *)
Lemma dict_by_name_keyed acc items m :
  dict_by_name acc items = Ok m →
  (∀ k r, acc !! k = Some r → Shape.keyed_by k r = true) →
  ∀ k r, m !! k = Some r → Shape.keyed_by k r = true.
Proof.
  revert acc. induction items as [|item items IH]; intros acc.
  { by intros [= ->]. }
  rewrite dict_by_name_cons.
  destruct (Shape.indexable item) eqn:Hitem.
  - destruct (indexable_key _ Hitem) as (k0 & -> & Hk0). cbn.
    intros Hm Hacc. apply (IH _ Hm). intros k r.
    destruct (decide (k0 = k)) as [->|Hne].
    + rewrite lookup_insert_eq. by intros [= <-].
    + rewrite lookup_insert_ne by done. apply Hacc.
  - by destruct (not_indexable_raises _ Hitem) as [-> | ->].
Qed.

Lemma keyed_by_truthy k record : Shape.keyed_by k record = true → py_truthy record = true.
Proof.
  destruct record as [| | | | |d]; try done. cbn.
  destruct (d !! "name") eqn:Hname; [|done]. intros _.
  by rewrite (lookup_size_ne_0 _ _ _ Hname).
Qed.

(** [_async_update_data] by cases on what the network and the payload give. *)
Lemma _async_update_data_cases self net :
  _async_update_data self net =
  match on_get net (_url self) with
  | Fails e => Shape.failed_refresh self e
  | Responds r =>
      if (400 <=? status r)%Z then Shape.failed_refresh self ClientError
      else
        match json_body r with
        | Raise e => Shape.failed_refresh self e
        | Ok payload =>
            match items ← py_iter payload; dict_by_name ∅ items with
            | Ok snapshot => ([HttpGet (_url self)], Ok snapshot)
            | Raise e => Shape.failed_refresh self e
            end
        end
  end.
Proof.
  unfold _async_update_data, _async_fetch_data, http_get, raise_for_status,
    Shape.failed_refresh, Spec.failure_message.
  destruct (on_get net (_url self)) as [r|e]; cbn.
  - destruct (400 <=? status r)%Z; cbn; [done|].
    destruct (json_body r) as [payload|e]; cbn.
    + destruct (py_iter payload) as [items|e]; cbn.
      * destruct (dict_by_name ∅ items) as [m|e]; cbn; [done|].
        by destruct (is_TimeoutError e); [|destruct (is_ClientError e)].
      * by destruct (is_TimeoutError e); [|destruct (is_ClientError e)].
    + by destruct (is_TimeoutError e); [|destruct (is_ClientError e)].
  - by destruct (is_TimeoutError e); [|destruct (is_ClientError e)].
Qed.

(** X1: every record of a snapshot that [_async_update_data] returns is an
    object filed under the key its own [name] makes; so it is never empty,
    and an entity whose key is present always passes the
    [if container_data] test. *)
Theorem snapshot_records_keyed self net t snapshot :
  _async_update_data self net = (t, Ok snapshot) →
  ∀ k record, snapshot !! k = Some record →
    Shape.keyed_by k record = true ∧ py_truthy record = true.
Proof.
  rewrite _async_update_data_cases. unfold Shape.failed_refresh.
  destruct (on_get net (_url self)) as [r|e]; [|done].
  destruct (400 <=? status r)%Z; [done|].
  destruct (json_body r) as [payload|e]; [|done].
  destruct (py_iter payload) as [items|e] eqn:Hiter; [|done]. cbn.
  destruct (dict_by_name ∅ items) as [m|e] eqn:Hm; [|done].
  intros [= _ <-] k record Hk.
  assert (Shape.keyed_by k record = true) as Hkeyed.
  { apply (dict_by_name_keyed _ _ _ Hm); [|done]. intros ??. by rewrite lookup_empty. }
  split; [done|]. by eapply keyed_by_truthy.
Qed.

Lemma snapshot_records_keyed_witness :
  Shape.keyed_by (KStr "db") (Examples.named "db" "v7") = true ∧
  py_truthy (Examples.named "db" "v7") = true.
Proof.
  apply (snapshot_records_keyed (Examples.watching Examples.up_to_date)
           (Examples.answering 200 (JList Examples.app_twice))
           [HttpGet "http://wud:3000/api/containers"]
           (<[KStr "app" := Examples.named "app" "v2"]>
              (<[KStr "db" := Examples.named "db" "v7"]>
                 (<[KStr "app" := Examples.named "app" "v1"]> ∅)))
           eq_refl (KStr "db") (Examples.named "db" "v7")).
  reflexivity.
Defined.

(** X2: [_async_update_data] returns a snapshot exactly when the server
    answers with a status below 400, the body parses, the payload can be
    iterated and every item is an object with a scalar [name]; it then makes
    its one request and logs nothing. *)
Theorem update_succeeds_iff self net :
  (∃ snapshot, (_async_update_data self net).2 = Ok snapshot) ↔
  (∃ r payload items,
      on_get net (_url self) = Responds r ∧
      (status r < 400)%Z ∧
      json_body r = Ok payload ∧
      py_iter payload = Ok items ∧
      forallb Shape.indexable items = true).
Proof.
  rewrite _async_update_data_cases. unfold Shape.failed_refresh. split.
  - intros [snapshot Hok].
    destruct (on_get net (_url self)) as [r|e]; [|done].
    destruct (400 <=? status r)%Z eqn:Hstatus; [done|].
    destruct (json_body r) as [payload|e] eqn:Hbody; [|done].
    destruct (py_iter payload) as [items|e] eqn:Hiter; [|done]. cbn in Hok.
    exists r, payload, items. split_and!; [done|by apply Z.leb_gt|done..|].
    destruct (forallb Shape.indexable items) eqn:Hall; [done|].
    by destruct (dict_by_name_Raise ∅ items Hall) as [E|E]; rewrite E in Hok.
  - intros (r & payload & items & -> & Hstatus & -> & Hiter & Hall).
    apply Z.leb_gt in Hstatus. rewrite Hstatus, Hiter. cbn.
    destruct (dict_by_name_Ok ∅ items Hall) as [m ->]. by exists m.
Qed.

Lemma update_succeeds_iff_witness :
  ∃ snapshot,
    (_async_update_data (Examples.watching Examples.up_to_date)
       (Examples.answering 200 (JList Examples.app_twice))).2 = Ok snapshot.
Proof.
  apply (proj2 (update_succeeds_iff (Examples.watching Examples.up_to_date)
                  (Examples.answering 200 (JList Examples.app_twice)))).
  exists {| status := 200; json_body := Ok (JList Examples.app_twice); text_body := Ok "" |},
    (JList Examples.app_twice), Examples.app_twice.
  split_and!; reflexivity.
Defined.

(** X3: an answer with a status from 400 on fails the refresh as a client
    error, whatever its body holds: the body is not read. *)
Theorem update_error_status self net r :
  on_get net (_url self) = Responds r →
  (400 ≤ status r)%Z →
  _async_update_data self net
  = ([HttpGet (_url self); Log ERROR "Client error fetching data from WUD: %s"],
     Raise (UpdateFailed "Client error fetching data from WUD: " ClientError)).
Proof.
  intros Hget Hstatus%Z.leb_le. by rewrite _async_update_data_cases, Hget, Hstatus.
Qed.

Lemma update_error_status_witness :
  _async_update_data (Examples.watching Examples.up_to_date)
    (Examples.answering 401 (JList Examples.app_twice))
  = ([HttpGet "http://wud:3000/api/containers";
      Log ERROR "Client error fetching data from WUD: %s"],
     Raise (UpdateFailed "Client error fetching data from WUD: " ClientError)).
Proof.
  apply (update_error_status (Examples.watching Examples.up_to_date)
           (Examples.answering 401 (JList Examples.app_twice))
           {| status := 401; json_body := Ok (JList Examples.app_twice);
              text_body := Ok "" |});
    [reflexivity | by vm_compute].
Defined.

(** X4: the refresh is all or nothing: if one item of the array is not an
    object with a scalar [name], no snapshot is returned, however many good
    records the array holds; the refresh fails as an unexpected error whose
    cause is [KeyError] or [TypeError]. *)
Theorem update_bad_item self net r items :
  on_get net (_url self) = Responds r →
  (status r < 400)%Z →
  json_body r = Ok (JList items) →
  forallb Shape.indexable items = false →
  ∃ cause,
    (cause = KeyError ∨ cause = TypeError) ∧
    _async_update_data self net
    = ([HttpGet (_url self); Log ERROR "Unexpected error fetching data from WUD: %s"],
       Raise (UpdateFailed "Unexpected error fetching data from WUD: " cause)).
Proof.
  intros Hget Hstatus%Z.leb_gt Hbody Hall.
  rewrite _async_update_data_cases, Hget, Hstatus, Hbody. cbn.
  destruct (dict_by_name_Raise ∅ items Hall) as [-> | ->];
    eexists; (split; [|done]); auto.
Qed.

Lemma update_bad_item_witness :
  ∃ cause,
    (cause = KeyError ∨ cause = TypeError) ∧
    _async_update_data (Examples.watching Examples.up_to_date)
      (Examples.answering 200 (JList (Examples.app_twice ++ [Examples.obj []])))
    = ([HttpGet "http://wud:3000/api/containers";
        Log ERROR "Unexpected error fetching data from WUD: %s"],
       Raise (UpdateFailed "Unexpected error fetching data from WUD: " cause)).
Proof.
  apply (update_bad_item (Examples.watching Examples.up_to_date)
           (Examples.answering 200 (JList (Examples.app_twice ++ [Examples.obj []])))
           {| status := 200;
              json_body := Ok (JList (Examples.app_twice ++ [Examples.obj []]));
              text_body := Ok "" |}
           (Examples.app_twice ++ [Examples.obj []]));
    [reflexivity | reflexivity | reflexivity | by vm_compute].
Defined.

End SnapshotFacts.

(** * More on the readers of the entity *)

Module ReaderFacts.
Import Py Coordinator Update PyStr PyStrFacts PyFacts ReleaseUrl.

Lemma dict_get_with_record key record coordinator :
  dict_get (data (Shape.with_record key record coordinator)) key = record.
Proof. unfold dict_get, Shape.with_record. cbn. by rewrite lookup_insert_eq. Qed.

Lemma py_truthy_empty d : py_truthy (JDict d) = false → d = ∅.
Proof. cbn. by intros ?%negb_false_iff%Nat.eqb_eq%map_size_empty_iff. Qed.

Lemma py_truthy_insert d k v : py_truthy (JDict (<[k := v]> d)) = true.
Proof. apply (py_truthy_lookup _ k v). by rewrite lookup_insert_eq. Qed.

(** X5: on a container without an update ([updateAvailable] false or
    missing), the [result] field is never consulted: replacing it by any
    value changes none of [installed_version], [latest_version] and
    [release_url]. *)
Theorem stale_result_ignored coordinator self record v :
  data coordinator !! _container_name self = Some record →
  Spec.update_available record = false →
  let coordinator' :=
    Shape.with_record (_container_name self) (Shape.with_field "result" v record)
      coordinator in
  installed_version coordinator' self = installed_version coordinator self ∧
  latest_version coordinator' self = latest_version coordinator self ∧
  release_url coordinator' self = release_url coordinator self.
Proof.
  intros Hrec Hup coordinator'.
  unfold installed_version, latest_version, release_url, coordinator'.
  rewrite !dict_get_with_record, !(dict_get_Some _ _ _ Hrec).
  destruct record as [| | | | |d]; try done. cbn [Shape.with_field].
  rewrite py_truthy_insert. unfold chosen_link_and_tag. cbn [py_get].
  rewrite ?(lookup_insert_ne d "result" "updateAvailable"),
    ?(lookup_insert_ne d "result" "link"), ?(lookup_insert_ne d "result" "image")
    by done.
  unfold Spec.update_available in Hup. cbn [Spec.field] in Hup.
  destruct (py_truthy (JDict d)) eqn:Htruthy.
  - rewrite !bind_Ok.
    destruct (d !! "updateAvailable") as [u|]; cbn [from_option id] in *;
      by rewrite ?Hup.
  - apply py_truthy_empty in Htruthy as ->. by rewrite !lookup_empty.
Qed.

Lemma stale_result_ignored_witness :
  let coordinator' :=
    Shape.with_record (KStr "app")
      (Shape.with_field "result" (JStr "stale") Examples.up_to_date)
      (Examples.watching Examples.up_to_date) in
  installed_version coordinator' (Examples.entity "app")
  = installed_version (Examples.watching Examples.up_to_date) (Examples.entity "app") ∧
  latest_version coordinator' (Examples.entity "app")
  = latest_version (Examples.watching Examples.up_to_date) (Examples.entity "app") ∧
  release_url coordinator' (Examples.entity "app")
  = release_url (Examples.watching Examples.up_to_date) (Examples.entity "app").
Proof.
  apply (stale_result_ignored (Examples.watching Examples.up_to_date)
           (Examples.entity "app") Examples.up_to_date (JStr "stale"));
    reflexivity.
Defined.

(** X6: on a container with an update ([updateAvailable] true), the
    record's own [link] is never consulted: replacing it by any value changes
    neither [latest_version] nor [release_url]. *)
Theorem own_link_ignored coordinator self record v :
  data coordinator !! _container_name self = Some record →
  Spec.update_available record = true →
  let coordinator' :=
    Shape.with_record (_container_name self) (Shape.with_field "link" v record)
      coordinator in
  latest_version coordinator' self = latest_version coordinator self ∧
  release_url coordinator' self = release_url coordinator self.
Proof.
  intros Hrec Hup coordinator'.
  unfold latest_version, release_url, coordinator'.
  rewrite !dict_get_with_record, !(dict_get_Some _ _ _ Hrec).
  destruct record as [| | | | |d]; try done. cbn [Shape.with_field].
  rewrite py_truthy_insert. unfold chosen_link_and_tag. cbn [py_get].
  rewrite ?(lookup_insert_ne d "link" "updateAvailable"),
    ?(lookup_insert_ne d "link" "result") by done.
  unfold Spec.update_available in Hup. cbn [Spec.field] in Hup.
  destruct (d !! "updateAvailable") as [u|] eqn:Hu; [|done].
  rewrite (py_truthy_lookup _ _ _ Hu), !bind_Ok. cbn [from_option id] in *.
  by rewrite Hup.
Qed.

Lemma own_link_ignored_witness :
  let coordinator' :=
    Shape.with_record (KStr "app")
      (Shape.with_field "link" (JInt 5) Examples.prerelease)
      (Examples.watching Examples.prerelease) in
  latest_version coordinator' (Examples.entity "app")
  = latest_version (Examples.watching Examples.prerelease) (Examples.entity "app") ∧
  release_url coordinator' (Examples.entity "app")
  = release_url (Examples.watching Examples.prerelease) (Examples.entity "app").
Proof.
  apply (own_link_ignored (Examples.watching Examples.prerelease)
           (Examples.entity "app") Examples.prerelease (JInt 5));
    reflexivity.
Defined.

(** What the two fixes can give back, and what they can raise. *)
Lemma release_url_fixup_shape link tag :
  match release_url_fixup link tag with
  | Ok v => py_truthy v = false ∨ Spec.is_str v = true
  | Raise e => e = TypeError ∨ e = AttributeError
  end.
Proof.
  unfold release_url_fixup, py_and_endswith.
  destruct (py_truthy link) eqn:Htruthy; [|cbn; by left].
  destruct link as [| | |l| |]; cbn; try (by right).
  destruct (endswith l "undefined"); cbn.
  - destruct tag; cbn; try (by left). destruct (re_search_digits_eol _); by right.
  - destruct (endswith l "."); cbn; [|by right].
    destruct tag; cbn; try (by left). destruct (re_search_digits_eol _); by right.
Qed.

Lemma bind_Raise_inv {A B} (m : result A) (f : A → result B) e :
  (m ≫= f) = Raise e → m = Raise e ∨ ∃ a, m = Ok a ∧ f a = Raise e.
Proof. destruct m as [a|e']; [intros H; right; by exists a|]. cbn. intros [= ->]. by left. Qed.

Lemma py_get_raises v k dflt e : py_get v k dflt = Raise e → e = AttributeError.
Proof. destruct v; by intros [= <-]. Qed.

Lemma chosen_link_and_tag_raises record e :
  chosen_link_and_tag record = Raise e → e = AttributeError.
Proof.
  unfold chosen_link_and_tag. intros H.
  apply bind_Raise_inv in H as [H|(u & _ & H)]; [by eapply py_get_raises|].
  destruct (py_truthy u);
    repeat (apply bind_Raise_inv in H as [H|(? & ? & H)];
            [first [by eapply py_get_raises | done]|]);
    done.
Qed.

(** What [release_url] can give back, and what it can raise. *)
Lemma release_url_outcome coordinator self :
  match release_url coordinator self with
  | Ok v => py_truthy v = false ∨ Spec.is_str v = true
  | Raise e => e = TypeError ∨ e = AttributeError
  end.
Proof.
  unfold release_url. destruct (py_truthy _); [|by left].
  destruct (chosen_link_and_tag _) as [[link tag]|e] eqn:Hchosen.
  - rewrite bind_Ok. apply release_url_fixup_shape.
  - right. by eapply chosen_link_and_tag_raises.
Qed.

(** X7: [release_url] returns either a string or a value that tests false
    (an absent link, an empty one), never another value; and the only
    exceptions it raises are [TypeError] and [AttributeError]. *)
Theorem release_url_shape coordinator self :
  (∀ v, release_url coordinator self = Ok v →
        py_truthy v = false ∨ Spec.is_str v = true) ∧
  (∀ e, release_url coordinator self = Raise e →
        e = TypeError ∨ e = AttributeError).
Proof.
  pose proof (release_url_outcome coordinator self) as Hshape.
  split; intros x Hx; by rewrite Hx in Hshape.
Qed.

Lemma release_url_shape_witness :
  py_truthy (JStr "https://github.com/o/r/releases/tag/v1.2.2") = false ∨
  Spec.is_str (JStr "https://github.com/o/r/releases/tag/v1.2.2") = true.
Proof.
  apply (proj1 (release_url_shape (Examples.watching Examples.up_to_date)
                  (Examples.entity "app"))).
  reflexivity.
Defined.

End ReaderFacts.

(** * More on the release notes *)

Module NotesFacts.
Import Py Coordinator Update PyStr PyStrFacts PyFacts IoFacts ReleaseNotes ReaderFacts.

Lemma contains_empty_subject sub : sub ≠ "" → contains "" sub = false.
Proof. by destruct sub. Qed.

(** The address choice on a string: it never raises, and gives an address
    exactly for the known page kinds. *)
Lemma github_api_url_str l :
  ∃ api, github_api_url (JStr l) = Ok api ∧
         (is_Some api ↔ Shape.release_page l = true).
Proof.
  unfold github_api_url, Shape.release_page. cbn [py_in py_replace]. rewrite bind_Ok.
  destruct (contains l "/releases/tag/"); cbn.
  { eexists. split; [done|]. split; [done|by eexists]. }
  destruct (contains l "/tags/"); cbn.
  { eexists. split; [done|]. split; [done|by eexists]. }
  destruct (contains l "/releases/latest"); cbn.
  { eexists. split; [done|]. split; [done|by eexists]. }
  eexists. split; [done|]. split; [by intros []|done].
Qed.

(** The request block always returns. *)
Lemma fetch_release_body_returns net api_url :
  ∃ v, (fetch_release_body net api_url).2 = Ok v.
Proof.
  unfold fetch_release_body, http_get, raise_for_status.
  destruct (on_get net api_url) as [r|e]; cbn.
  - destruct (status r =? 403)%Z; cbn; [by eexists|].
    destruct (400 <=? status r)%Z; cbn; [by eexists|].
    destruct (json_body r) as [body|e]; cbn.
    + destruct (py_get body "body" JNull) as [v|e]; cbn; [by eexists|].
      destruct (is_TimeoutError e); [|destruct (is_ClientError e)]; by eexists.
    + destruct (is_TimeoutError e); [|destruct (is_ClientError e)]; by eexists.
  - destruct (is_TimeoutError e); [|destruct (is_ClientError e)]; by eexists.
Qed.

Lemma fetch_release_body_head net api_url :
  HttpGet api_url ∈ (fetch_release_body net api_url).1.
Proof.
  unfold fetch_release_body, http_get, raise_for_status.
  destruct (on_get net api_url) as [r|e]; cbn.
  - destruct (status r =? 403)%Z; cbn; [by left|].
    destruct (400 <=? status r)%Z; cbn; [by left|].
    destruct (json_body r) as [body|e]; cbn.
    + destruct (py_get body "body" JNull) as [v|e]; cbn; [by left|].
      destruct (is_TimeoutError e); [|destruct (is_ClientError e)]; by left.
    + destruct (is_TimeoutError e); [|destruct (is_ClientError e)]; by left.
  - destruct (is_TimeoutError e); [|destruct (is_ClientError e)]; by left.
Qed.

(** [async_release_notes] once [release_url] has returned a string. *)
Lemma async_release_notes_str coordinator self net l :
  py_truthy (dict_get (data coordinator) (_container_name self)) = true →
  release_url coordinator self = Ok (JStr l) →
  async_release_notes coordinator self net =
  if contains l "github.com" then
    match github_api_url (JStr l) with
    | Ok (Some api_url) => fetch_release_body net api_url
    | _ => ([Log ERROR "Unsupported GitHub URL format: %s"], Ok JNull)
    end
  else ([Log DEBUG "No GitHub URL found or not applicable: %s"], Ok JNull).
Proof.
  intros Htruthy Hurl. unfold async_release_notes.
  rewrite Htruthy, Hurl. cbn [negb]. rewrite bind_lift_Ok. cbn [py_truthy py_in].
  destruct (String.eqb_spec l "") as [->|Hne]; cbn [negb].
  - rewrite bind_lift_Ok. by rewrite contains_empty_subject.
  - rewrite bind_lift_Ok. destruct (contains l "github.com"); [|done].
    destruct (github_api_url_str l) as (api & -> & _). rewrite bind_lift_Ok.
    by destruct api.
Qed.

(** [async_release_notes] once [release_url] has returned a value that tests
    false. *)
Lemma async_release_notes_falsy coordinator self net v :
  release_url coordinator self = Ok v → py_truthy v = false →
  async_release_notes coordinator self net
  = (if py_truthy (dict_get (data coordinator) (_container_name self))
     then [Log DEBUG "No GitHub URL found or not applicable: %s"] else [],
     Ok JNull).
Proof.
  intros Hurl Hv. unfold async_release_notes.
  destruct (py_truthy (dict_get _ _)); [|done]. cbn [negb].
  by rewrite Hurl, bind_lift_Ok, Hv, bind_lift_Ok.
Qed.

(** X8: [async_release_notes] raises exactly when [release_url] raises on a
    record that is present, and then raises the same exception before any
    request or log entry; the network can never make it raise. *)
Theorem release_notes_raise_iff coordinator self net e :
  (async_release_notes coordinator self net).2 = Raise e ↔
  py_truthy (dict_get (data coordinator) (_container_name self)) = true ∧
  release_url coordinator self = Raise e.
Proof.
  destruct (py_truthy (dict_get (data coordinator) (_container_name self)))
    eqn:Htruthy.
  2:{ unfold async_release_notes. rewrite Htruthy. split; [done|by intros []]. }
  pose proof (release_url_outcome coordinator self) as Hshape.
  destruct (release_url coordinator self) as [v|e'] eqn:Hurl.
  - split; [|by intros []]. destruct Hshape as [Hv|Hv].
    + by rewrite (async_release_notes_falsy _ _ _ _ Hurl Hv).
    + destruct v as [| | |l| |]; try done.
      rewrite (async_release_notes_str _ _ _ _ Htruthy Hurl).
      destruct (contains l "github.com"); [|done].
      destruct (github_api_url (JStr l)) as [[api_url|]|]; try done.
      destruct (fetch_release_body_returns net api_url) as [x Hx]. by rewrite Hx.
  - unfold async_release_notes. rewrite Htruthy, Hurl. cbn.
    split; [by intros [= ->]|by intros [_ [= ->]]].
Qed.

Lemma release_notes_raise_iff_witness :
  (async_release_notes (Examples.watching Examples.untagged_undefined)
     (Examples.entity "app") (Examples.answering 200 JNull)).2 = Raise TypeError.
Proof.
  apply (proj2 (release_notes_raise_iff
                  (Examples.watching Examples.untagged_undefined)
                  (Examples.entity "app") (Examples.answering 200 JNull) TypeError)).
  split; reflexivity.
Defined.

Lemma fetch_release_body_one_request net api_url :
  List.filter Shape.is_request (fetch_release_body net api_url).1 = [HttpGet api_url].
Proof.
  unfold fetch_release_body, http_get, raise_for_status.
  destruct (on_get net api_url) as [r|e]; cbn.
  - destruct (status r =? 403)%Z; cbn; [done|].
    destruct (400 <=? status r)%Z; cbn; [done|].
    destruct (json_body r) as [body|e]; cbn.
    + destruct (py_get body "body" JNull) as [v|e]; cbn; [done|].
      by destruct (is_TimeoutError e); [|destruct (is_ClientError e)].
    + by destruct (is_TimeoutError e); [|destruct (is_ClientError e)].
  - by destruct (is_TimeoutError e); [|destruct (is_ClientError e)].
Qed.

Lemma async_release_notes_requests coordinator self net :
  length (List.filter Shape.is_request (async_release_notes coordinator self net).1) ≤ 1.
Proof.
  unfold async_release_notes.
  destruct (negb _); [cbn; lia|].
  destruct (release_url coordinator self) as [link|e];
    [rewrite bind_lift_Ok|cbn; lia].
  destruct (if py_truthy link then _ else _) as [[|]|e];
    [rewrite bind_lift_Ok| |cbn; lia].
  - destruct (github_api_url link) as [[api_url|]|e];
      [rewrite bind_lift_Ok| |cbn; lia].
    + by rewrite fetch_release_body_one_request.
    + rewrite bind_lift_Ok. cbn. lia.
  - rewrite bind_lift_Ok. cbn. lia.
Qed.

(** X9: [async_release_notes] issues a request exactly when the record is
    present, [release_url] returns a string that contains "github.com", and
    that string names a tag page ("/releases/tag/" or "/tags/") or the latest
    release ("/releases/latest"); and it never issues more than one network
    call. *)
Theorem release_notes_request_iff coordinator self net :
  ((∃ url, HttpGet url ∈ (async_release_notes coordinator self net).1) ↔
   (∃ l, py_truthy (dict_get (data coordinator) (_container_name self)) = true ∧
         release_url coordinator self = Ok (JStr l) ∧
         contains l "github.com" = true ∧
         Shape.release_page l = true)) ∧
  length (List.filter Shape.is_request (async_release_notes coordinator self net).1) ≤ 1.
Proof.
  split; [|apply async_release_notes_requests].
  split.
  - intros [url Hreq].
    destruct (py_truthy (dict_get (data coordinator) (_container_name self)))
      eqn:Htruthy.
    2:{ unfold async_release_notes in Hreq. rewrite Htruthy in Hreq.
        by apply elem_of_nil in Hreq. }
    pose proof (release_url_outcome coordinator self) as Hshape.
    destruct (release_url coordinator self) as [v|e'] eqn:Hurl.
    2:{ unfold async_release_notes in Hreq. rewrite Htruthy, Hurl in Hreq.
        by apply elem_of_nil in Hreq. }
    destruct Hshape as [Hv|Hv].
    { rewrite (async_release_notes_falsy _ _ _ _ Hurl Hv), Htruthy in Hreq.
      cbn in Hreq. by apply list_elem_of_singleton in Hreq. }
    destruct v as [| | |l| |]; try done. exists l.
    rewrite (async_release_notes_str _ _ _ _ Htruthy Hurl) in Hreq.
    destruct (contains l "github.com");
      [|by apply list_elem_of_singleton in Hreq].
    split_and!; [done..|].
    destruct (github_api_url_str l) as (api & Hapi & Hpage). rewrite Hapi in Hreq.
    destruct api as [api_url|]; [by apply Hpage|].
    by apply list_elem_of_singleton in Hreq.
  - intros (l & Htruthy & Hurl & Hgithub & Hpage).
    rewrite (async_release_notes_str _ _ _ _ Htruthy Hurl), Hgithub.
    destruct (github_api_url_str l) as (api & -> & Hapi).
    apply Hapi in Hpage. destruct Hpage as [api_url Heq]. subst api. exists api_url.
    apply fetch_release_body_head.
Qed.

Lemma release_notes_request_iff_witness :
  ∃ url, HttpGet url ∈
    (async_release_notes (Examples.watching Examples.released)
       (Examples.entity "app") (Examples.answering 200 JNull)).1.
Proof.
  apply (proj2 (proj1 (release_notes_request_iff (Examples.watching Examples.released)
                         (Examples.entity "app") (Examples.answering 200 JNull)))).
  exists "https://github.com/o/r/releases/tag/v1.2.3". split_and!; reflexivity.
Defined.

(** ** The address of the request *)

(** Rewriting the tag page keeps the API prefix in place. *)
Lemma api_prefix_kept rest :
  startswith
    (str_replace ("https://api.github.com/repos/" +:+ rest)
       "/releases/tag/" "/releases/tags/")
    "https://api.github.com/repos/" = true.
Proof.
  unfold str_replace. rewrite !app_cons, app_nil_l.
  cbn [replace_from startswith Ascii.eqb Bool.eqb String.length Nat.sub].
  destruct (startswith rest "releases/tag/"); rewrite ?app_cons, ?app_nil_l;
    cbn [startswith Ascii.eqb Bool.eqb]; first [reflexivity | apply startswith_nil].
Qed.

(** X10: when [release_url] is a page under "https://github.com/", every
    request of [async_release_notes] goes to an address under
    "https://api.github.com/repos/". *)
Theorem release_notes_api_host coordinator self net rest url :
  release_url coordinator self = Ok (JStr ("https://github.com/" +:+ rest)) →
  HttpGet url ∈ (async_release_notes coordinator self net).1 →
  startswith url "https://api.github.com/repos/" = true.
Proof.
  intros Hurl Hreq.
  destruct (py_truthy (dict_get (data coordinator) (_container_name self)))
    eqn:Htruthy.
  2:{ unfold async_release_notes in Hreq. rewrite Htruthy in Hreq.
      by apply elem_of_nil in Hreq. }
  rewrite (async_release_notes_str _ _ _ _ Htruthy Hurl) in Hreq.
  destruct (contains _ "github.com"); [|by apply list_elem_of_singleton in Hreq].
  unfold github_api_url in Hreq. cbn [py_in py_replace] in Hreq.
  rewrite !bind_Ok in Hreq.
  rewrite (str_replace_match "https://github.com/" "https://api.github.com/repos/")
    in Hreq by done.
  set (api := "https://api.github.com/repos/" +:+ _) in Hreq.
  assert (startswith api "https://api.github.com/repos/" = true) as Hapi
    by apply startswith_app.
  destruct (if contains _ "/releases/tag/" then Ok true else _) as [[|]|] eqn:E;
    [| |by destruct (contains _ "/releases/tag/")].
  - rewrite bind_Ok in Hreq. cbn [mbind result_bind] in Hreq.
    apply fetch_release_body_request in Hreq as ->.
    destruct (contains api "/releases/tag/"); [apply api_prefix_kept|done].
  - rewrite bind_Ok in Hreq.
    destruct (contains _ "/releases/latest"); cbn in Hreq.
    + by apply fetch_release_body_request in Hreq as ->.
    + by apply list_elem_of_singleton in Hreq.
Qed.

Lemma release_notes_api_host_witness :
  startswith "https://api.github.com/repos/o/r/releases/tags/v1.2.3"
    "https://api.github.com/repos/" = true.
Proof.
  apply (release_notes_api_host (Examples.watching Examples.released)
           (Examples.entity "app") (Examples.answering 200 JNull)
           "o/r/releases/tag/v1.2.3");
    [reflexivity | by vm_compute; left].
Defined.

(** ** What the notes can be *)

Lemma fetch_release_body_notes net api_url v :
  v ≠ JNull →
  (fetch_release_body net api_url).2 = Ok v ↔
  ∃ r d, on_get net api_url = Responds r ∧
         status r ≠ 403%Z ∧ (status r < 400)%Z ∧
         json_body r = Ok (JDict d) ∧ d !! "body" = Some v.
Proof.
  intros Hv. unfold fetch_release_body, http_get, raise_for_status. split.
  - destruct (on_get net api_url) as [r|e]; cbn.
    + destruct (status r =? 403)%Z eqn:H403; cbn; [by intros [= <-]|].
      destruct (400 <=? status r)%Z eqn:H400; cbn; [by intros [= <-]|].
      destruct (json_body r) as [body|e] eqn:Hbody; cbn.
      * destruct body as [| | | | |d]; cbn;
          try (by intros [= <-]).
        destruct (d !! "body") as [x|] eqn:Hx; cbn; [|by intros [= <-]].
        intros [= ->]. exists r, d.
        split_and!; [done|by apply Z.eqb_neq|by apply Z.leb_gt|done..].
      * destruct (is_TimeoutError e); [|destruct (is_ClientError e)];
          by intros [= <-].
    + destruct (is_TimeoutError e); [|destruct (is_ClientError e)];
        by intros [= <-].
  - intros (r & d & -> & H403%Z.eqb_neq & H400%Z.leb_gt & Hbody & Hx). cbn.
    rewrite H403. cbn. rewrite H400. cbn. rewrite Hbody. cbn. by rewrite Hx.
Qed.

(** X11: the notes that [async_release_notes] returns, when it returns any,
    are the [body] field of the JSON object with which GitHub answered its
    request, and that answer had a status below 400 other than 403; every
    such answer is returned. *)
Theorem release_notes_body_iff coordinator self net v :
  v ≠ JNull →
  (async_release_notes coordinator self net).2 = Ok v ↔
  ∃ url r d,
    HttpGet url ∈ (async_release_notes coordinator self net).1 ∧
    on_get net url = Responds r ∧
    status r ≠ 403%Z ∧ (status r < 400)%Z ∧
    json_body r = Ok (JDict d) ∧ d !! "body" = Some v.
Proof.
  intros Hv. split.
  - intros Hnotes.
    destruct (py_truthy (dict_get (data coordinator) (_container_name self)))
      eqn:Htruthy.
    2:{ unfold async_release_notes in Hnotes. rewrite Htruthy in Hnotes.
        cbn in Hnotes. by injection Hnotes as <-. }
    pose proof (release_url_outcome coordinator self) as Hshape.
    destruct (release_url coordinator self) as [link|e] eqn:Hurl.
    2:{ unfold async_release_notes in Hnotes. by rewrite Htruthy, Hurl in Hnotes. }
    destruct Hshape as [Hlink|Hlink].
    { rewrite (async_release_notes_falsy _ _ _ _ Hurl Hlink) in Hnotes.
      cbn in Hnotes. by injection Hnotes as <-. }
    destruct link as [| | |l| |]; try done.
    rewrite (async_release_notes_str _ _ _ _ Htruthy Hurl) in *.
    destruct (contains l "github.com"); [|cbn in Hnotes; by injection Hnotes as <-].
    destruct (github_api_url (JStr l)) as [[api_url|]|];
      try (cbn in Hnotes; by injection Hnotes as <-).
    apply (fetch_release_body_notes _ _ _ Hv) in Hnotes as (r & d & Hnotes).
    exists api_url, r, d. split; [apply fetch_release_body_head|done].
  - intros (url & r & d & Hreq & Hnotes).
    rewrite (async_release_notes_request _ _ _ _ Hreq).
    apply (fetch_release_body_notes _ _ _ Hv). by exists r, d.
Qed.

Lemma release_notes_body_iff_witness :
  (async_release_notes (Examples.watching Examples.released) (Examples.entity "app")
     (Examples.answering 200 (Examples.obj [("body", JStr "Fixes")]))).2
  = Ok (JStr "Fixes").
Proof.
  apply (proj2 (release_notes_body_iff (Examples.watching Examples.released)
                  (Examples.entity "app")
                  (Examples.answering 200 (Examples.obj [("body", JStr "Fixes")]))
                  (JStr "Fixes") ltac:(discriminate))).
  exists "https://api.github.com/repos/o/r/releases/tags/v1.2.3",
    {| status := 200; json_body := Ok (Examples.obj [("body", JStr "Fixes")]);
       text_body := Ok "" |},
    (list_to_map [("body", JStr "Fixes")]).
  split_and!; [by vm_compute; left | reflexivity | discriminate | reflexivity
              | reflexivity | reflexivity].
Defined.

(** X12: when the request of [async_release_notes] raises, or reading the
    body of an answer below 400 raises, the fetch returns the absent result
    and logs one error, whose message follows the class of the exception:
    a timeout, a client error, anything else. *)
Theorem release_notes_request_raises coordinator self net url e :
  HttpGet url ∈ (async_release_notes coordinator self net).1 →
  on_get net url = Fails e ∨
  (∃ r, on_get net url = Responds r ∧ (status r < 400)%Z ∧ json_body r = Raise e) →
  async_release_notes coordinator self net
  = ([HttpGet url; Log ERROR (Shape.notes_failure_message e)], Ok JNull).
Proof.
  intros Hreq Hfail. rewrite (async_release_notes_request _ _ _ _ Hreq).
  unfold fetch_release_body, http_get, raise_for_status, Shape.notes_failure_message.
  destruct Hfail as [->|(r & -> & H400 & Hbody)]; cbn.
  - by destruct (is_TimeoutError e); [|destruct (is_ClientError e)].
  - assert ((status r =? 403)%Z = false) as -> by (apply Z.eqb_neq; lia).
    apply Z.leb_gt in H400. cbn. rewrite H400. cbn. rewrite Hbody. cbn.
    by destruct (is_TimeoutError e); [|destruct (is_ClientError e)].
Qed.

Lemma release_notes_request_raises_witness :
  async_release_notes (Examples.watching Examples.released) (Examples.entity "app")
    (Examples.failing TimeoutError)
  = ([HttpGet "https://api.github.com/repos/o/r/releases/tags/v1.2.3";
      Log ERROR "Timeout fetching release notes from GitHub"], Ok JNull).
Proof.
  apply (release_notes_request_raises (Examples.watching Examples.released)
           (Examples.entity "app") (Examples.failing TimeoutError)
           "https://api.github.com/repos/o/r/releases/tags/v1.2.3" TimeoutError);
    [by vm_compute; left | by left].
Defined.

End NotesFacts.

(** * More on install *)

Module InstallFacts.
Import Py Coordinator Update PyStr PyStrFacts PyFacts IoFacts Versions.

(** Turning every dot into a slash leaves no dot and keeps the length. *)
Lemma dots_to_slashes s :
  contains (str_replace s "." "/") "." = false ∧
  String.length (str_replace s "." "/") = String.length s.
Proof.
  induction s as [|c s [IH1 IH2]]; [by split|].
  destruct (startswith (String c s) ".") eqn:Hdot.
  - cbn [startswith] in Hdot. destruct (Ascii.eqb_spec "."%char c) as [<-|]; [|done].
    change (String "." s) with ("." +:+ s). rewrite str_replace_match by done.
    rewrite app_cons, app_nil_l. cbn [contains startswith Ascii.eqb Bool.eqb].
    split; [done|]. cbn [String.length]. by rewrite IH2.
  - rewrite str_replace_skip by done. cbn [contains]. rewrite IH1.
    cbn [String.length]. rewrite IH2. split; [|done].
    cbn [startswith] in *. destruct (Ascii.eqb "." c); [|done].
    by rewrite startswith_nil in Hdot.
Qed.

(** The request block of install always returns, and makes one call. *)
Lemma post_trigger_cases net ep :
  post_trigger net ep =
  (Log DEBUG "Sending update request to WUD trigger endpoint: %s" :: HttpPost ep ::
   match on_post net ep with
   | Responds r =>
       match text_body r with
       | Ok _ =>
           if (status r =? 200)%Z
           then [Log INFO "Update for container %s has been triggered successfully"]
           else [Log ERROR "Failed to trigger update for container %s: %s"]
       | Raise e =>
           if is_ClientError e then [Log ERROR "Error communicating with WUD API: %s"]
           else [Log ERROR "Unexpected error during update"]
       end
   | Fails e =>
       if is_ClientError e then [Log ERROR "Error communicating with WUD API: %s"]
       else [Log ERROR "Unexpected error during update"]
   end, Ok ()).
Proof.
  unfold post_trigger, http_post. rewrite bind_log.
  destruct (on_post net ep) as [r|e]; cbn.
  - destruct (text_body r) as [text|e]; cbn.
    + by destruct (status r =? 200)%Z.
    + by destruct (is_ClientError e).
  - by destruct (is_ClientError e).
Qed.

(** [async_install] by cases on the record. *)
Lemma async_install_cases coordinator self net :
  let record := dict_get (data coordinator) (_container_name self) in
  async_install coordinator self net =
  if py_truthy record then
    match labels ← py_get record "labels" (JDict ∅);
          py_get labels "wud.trigger.hass" (JDict ∅) with
    | Raise e => ([Log INFO "Starting update for container %s"], Raise e)
    | Ok trigger_name =>
        if py_truthy trigger_name then
          match py_replace trigger_name "." "/" with
          | Raise e => ([Log INFO "Starting update for container %s"], Raise e)
          | Ok path =>
              if py_truthy (Spec.field record ["id"]) then
                (Log INFO "Starting update for container %s" ::
                 (post_trigger net
                    {| ep_url := _url coordinator;
                       ep_container_id := Spec.field record ["id"];
                       ep_trigger_path := path |}).1, Ok ())
              else ([Log INFO "Starting update for container %s";
                     Log ERROR "No container id for %s"], Ok ())
          end
        else ([Log INFO "Starting update for container %s";
               Log ERROR "HASS Trigger Label not found for %s"], Ok ())
    end
  else ([Log INFO "Starting update for container %s";
         Log ERROR "Container data not found for %s"], Ok ()).
Proof.
  intros record. unfold async_install. fold record. rewrite bind_log.
  destruct (py_truthy record) eqn:Htruthy; [|done]. cbn [negb].
  destruct record as [| | | | |d] eqn:Hrecord; try done.
  rewrite (py_get_dict d "labels"), bind_lift_Ok, bind_Ok.
  destruct (py_get _ "wud.trigger.hass" _) as [trigger_name|e]; [|done].
  rewrite bind_lift_Ok.
  destruct (py_truthy trigger_name); [|done]. cbn [negb].
  destruct (py_replace trigger_name "." "/") as [path|e]; [|done].
  rewrite bind_lift_Ok, (py_get_dict d "id"), bind_lift_Ok.
  change (Spec.field (JDict d) ["id"]) with (default JNull (d !! "id")).
  destruct (py_truthy (default JNull (d !! "id"))); [|done]. cbn [negb].
  by rewrite post_trigger_cases.
Qed.

(** The label the code acts on is the one the record names. *)
Lemma trigger_label_read record :
  py_truthy record = true →
  match labels ← py_get record "labels" (JDict ∅);
        py_get labels "wud.trigger.hass" (JDict ∅) with
  | Ok trigger_name =>
      if py_truthy trigger_name then
        match py_replace trigger_name "." "/" with
        | Ok path =>
            ∃ label, Shape.trigger_label record = Some label ∧
                     path = str_replace label "." "/"
        | Raise e => Shape.trigger_label record = None ∧ e = AttributeError
        end
      else Shape.trigger_label record = None
  | Raise e => Shape.trigger_label record = None ∧ e = AttributeError
  end.
Proof.
  unfold Shape.trigger_label.
  destruct record as [| | | | |d]; try done. intros _. cbn [py_get Spec.field].
  rewrite bind_Ok.
  destruct (d !! "labels") as [[| | | | |labels]|]; cbn [from_option id py_get];
    try done.
  destruct (labels !! "wud.trigger.hass") as [[|b|z|l|items|fields]|];
    cbn [from_option id py_truthy py_replace]; try done.
  - by destruct b.
  - by destruct (z =? 0)%Z.
  - destruct (String.eqb l ""); cbn [negb]; [done|by exists l].
  - by destruct items.
  - by destruct (size fields =? 0).
Qed.

Lemma post_trigger_requests net ep :
  List.filter Shape.is_request (post_trigger net ep).1 = [HttpPost ep].
Proof.
  rewrite post_trigger_cases. cbn.
  destruct (on_post net ep) as [r|e].
  - destruct (text_body r) as [text|e]; [by destruct (status r =? 200)%Z|].
    by destruct (is_ClientError e).
  - by destruct (is_ClientError e).
Qed.

Lemma post_trigger_posts net ep ep' :
  HttpPost ep' ∈ (post_trigger net ep).1 ↔ ep' = ep.
Proof.
  rewrite post_trigger_cases. cbn. rewrite !elem_of_cons.
  split; [|intros ->; right; by left].
  intros [|[[= ->]|Hrest]]; [done..|].
  destruct (on_post net ep) as [r|e].
  - destruct (text_body r) as [text|e];
      [destruct (status r =? 200)%Z|destruct (is_ClientError e)];
      by apply list_elem_of_singleton in Hrest.
  - destruct (is_ClientError e); by apply list_elem_of_singleton in Hrest.
Qed.

(** X13: the network has no say in how [async_install] ends: with any two
    networks it ends the same way, and that is a normal return or an
    [AttributeError] raised while the label is read; an answer of the server
    or a failed request is never raised. *)
Theorem install_result_ignores_network coordinator self net net' :
  (async_install coordinator self net).2 = (async_install coordinator self net').2 ∧
  ((async_install coordinator self net).2 = Ok () ∨
   (async_install coordinator self net).2 = Raise AttributeError).
Proof.
  rewrite !async_install_cases.
  destruct (py_truthy (dict_get _ _)) eqn:Htruthy; [|by auto].
  pose proof (trigger_label_read _ Htruthy) as Hlabel.
  destruct (_ ≫= _) as [trigger_name|e]; [|destruct Hlabel as [_ ->]; by auto].
  destruct (py_truthy trigger_name); [|by auto].
  destruct (py_replace trigger_name "." "/") as [path|e];
    [|destruct Hlabel as [_ ->]; by auto].
  destruct (py_truthy (Spec.field _ ["id"])); by auto.
Qed.

(** X14: [async_install] posts exactly when the record names a trigger label
    that is a string and not empty and has an [id] that tests true; the one
    request it then makes goes to the coordinator's URL, that [id], and the
    label with every "." turned into "/": a path of the label's length that
    holds no ".". It never makes another network call. *)
Theorem install_posts_iff coordinator self net :
  let record := dict_get (data coordinator) (_container_name self) in
  let trace := (async_install coordinator self net).1 in
  ((∃ ep, HttpPost ep ∈ trace) ↔
   (∃ label, Shape.trigger_label record = Some label ∧
             py_truthy (Spec.field record ["id"]) = true)) ∧
  (∀ ep, HttpPost ep ∈ trace →
     ∃ label,
       Shape.trigger_label record = Some label ∧
       ep = {| ep_url := _url coordinator;
               ep_container_id := Spec.field record ["id"];
               ep_trigger_path := str_replace label "." "/" |} ∧
       contains (ep_trigger_path ep) "." = false ∧
       String.length (ep_trigger_path ep) = String.length label) ∧
  length (List.filter Shape.is_request trace) ≤ 1.
Proof.
  intros record trace. unfold trace. rewrite async_install_cases. fold record.
  assert (∀ m, ¬ HttpPost m ∈ [Log INFO "Starting update for container %s"]) as Hno1.
  { intros m H. by apply list_elem_of_singleton in H. }
  assert (∀ m fmt, ¬ HttpPost m ∈ [Log INFO "Starting update for container %s";
                                    Log ERROR fmt]) as Hno2.
  { intros m fmt H. apply elem_of_cons in H as [|H]; [done|].
    by apply list_elem_of_singleton in H. }
  assert (∀ label, Shape.trigger_label record = Some label → py_truthy record = true)
    as Hpresent.
  { intros label. unfold Shape.trigger_label. destruct record as [| | | | |d]; try done.
    cbn [Spec.field]. destruct (d !! "labels") eqn:Hd; [|done]. intros _.
    by eapply py_truthy_lookup. }
  destruct (py_truthy record) eqn:Htruthy.
  2:{ split_and!; [split|..].
      - by intros [ep ?%Hno2].
      - intros (label & Hlabel%Hpresent & _). congruence.
      - by intros ep ?%Hno2.
      - cbn. lia. }
  pose proof (trigger_label_read _ Htruthy) as Hlabel.
  destruct (_ ≫= _) as [trigger_name|e].
  2:{ destruct Hlabel as [Hlabel _]. split_and!; [split|..].
      - by intros [ep ?%Hno1].
      - intros (label & ? & _). congruence.
      - by intros ep ?%Hno1.
      - cbn. lia. }
  destruct (py_truthy trigger_name).
  2:{ split_and!; [split|..].
      - by intros [ep ?%Hno2].
      - intros (label & ? & _). congruence.
      - by intros ep ?%Hno2.
      - cbn. lia. }
  destruct (py_replace trigger_name "." "/") as [path|e].
  2:{ destruct Hlabel as [Hlabel _]. split_and!; [split|..].
      - by intros [ep ?%Hno1].
      - intros (label & ? & _). congruence.
      - by intros ep ?%Hno1.
      - cbn. lia. }
  destruct Hlabel as (label & Hlabel & ->).
  destruct (py_truthy (Spec.field record ["id"])) eqn:Hid.
  2:{ split_and!; [split|..].
      - by intros [ep ?%Hno2].
      - by intros (? & _ & ?).
      - by intros ep ?%Hno2.
      - cbn. lia. }
  cbn [fst]. split_and!; [split|..].
  - intros _. by exists label.
  - intros _. eexists. right. by apply post_trigger_posts.
  - intros ep [|Hep%post_trigger_posts]%elem_of_cons; [done|]. subst ep.
    exists label. cbn [ep_trigger_path]. destruct (dots_to_slashes label). done.
  - cbn [List.filter Shape.is_request]. by rewrite post_trigger_requests.
Qed.

Lemma install_posts_iff_witness :
  ∃ ep, HttpPost ep ∈
    (async_install (Examples.watching Cases.triggered) (Examples.entity "app")
       (Examples.answering 200 JNull)).1.
Proof.
  apply (proj2 (proj1 (install_posts_iff (Examples.watching Cases.triggered)
                         (Examples.entity "app") (Examples.answering 200 JNull)))).
  exists "docker.local". split; reflexivity.
Defined.

(** X15: [async_install] logs that the update has been triggered exactly
    when its request was answered with status 200 and the text of the answer
    could be read; every other status, 201 and 204 included, is logged as a
    failure. *)
Theorem install_success_iff coordinator self net :
  let trace := (async_install coordinator self net).1 in
  Log INFO "Update for container %s has been triggered successfully" ∈ trace ↔
  ∃ ep r text,
    HttpPost ep ∈ trace ∧ on_post net ep = Responds r ∧
    text_body r = Ok text ∧ status r = 200%Z.
Proof.
  intros trace. unfold trace. rewrite async_install_cases.
  set (success := Log INFO "Update for container %s has been triggered successfully").
  assert (∀ fmt, ¬ success ∈ [Log INFO "Starting update for container %s";
                              Log ERROR fmt]) as Hno2.
  { intros fmt H. apply elem_of_cons in H as [|H]; [done|].
    by apply list_elem_of_singleton in H. }
  assert (¬ success ∈ [Log INFO "Starting update for container %s"]) as Hno1.
  { intros H. by apply list_elem_of_singleton in H. }
  assert (∀ ep fmt, ¬ HttpPost ep ∈ [Log INFO "Starting update for container %s";
                                     Log ERROR fmt]) as Hnp2.
  { intros ep fmt H. apply elem_of_cons in H as [|H]; [done|].
    by apply list_elem_of_singleton in H. }
  assert (∀ ep, ¬ HttpPost ep ∈ [Log INFO "Starting update for container %s"]) as Hnp1.
  { intros ep H. by apply list_elem_of_singleton in H. }
  destruct (py_truthy (dict_get _ _));
    [|split; [by intros ?%Hno2|by intros (ep & ? & ? & ?%Hnp2 & _)]].
  destruct (_ ≫= _) as [trigger_name|e];
    [|split; [by intros ?%Hno1|by intros (ep & ? & ? & ?%Hnp1 & _)]].
  destruct (py_truthy trigger_name);
    [|split; [by intros ?%Hno2|by intros (ep & ? & ? & ?%Hnp2 & _)]].
  destruct (py_replace trigger_name "." "/") as [path|e];
    [|split; [by intros ?%Hno1|by intros (ep & ? & ? & ?%Hnp1 & _)]].
  destruct (py_truthy (Spec.field _ ["id"]));
    [|split; [by intros ?%Hno2|by intros (ep & ? & ? & ?%Hnp2 & _)]].
  cbn [fst]. set (ep0 := {| ep_url := _ |}). split.
  - intros [|Hin]%elem_of_cons; [done|].
    assert (HttpPost ep0 ∈ (post_trigger net ep0).1) as Hpost
      by by apply post_trigger_posts.
    rewrite post_trigger_cases in Hin. cbn [fst] in Hin.
    apply elem_of_cons in Hin as [|Hin]; [done|].
    apply elem_of_cons in Hin as [|Hin]; [done|].
    destruct (on_post net ep0) as [r|e] eqn:Hr.
    + destruct (text_body r) as [text|e] eqn:Htext.
      * destruct (status r =? 200)%Z eqn:H200.
        -- exists ep0, r, text. split_and!; [by right|done..|by apply Z.eqb_eq].
        -- by apply list_elem_of_singleton in Hin.
      * destruct (is_ClientError e); by apply list_elem_of_singleton in Hin.
    + destruct (is_ClientError e); by apply list_elem_of_singleton in Hin.
  - intros (ep & r & text & [|Hep%post_trigger_posts]%elem_of_cons & Hr & Htext & H200);
      [done|]. subst ep.
    right. rewrite post_trigger_cases, Hr, Htext, H200. cbn. right. right. by left.
Qed.

Lemma install_success_iff_witness :
  Log INFO "Update for container %s has been triggered successfully" ∈
    (async_install (Examples.watching Cases.triggered) (Examples.entity "app")
       (Examples.answering 200 JNull)).1.
Proof.
  apply (proj2 (install_success_iff (Examples.watching Cases.triggered)
                  (Examples.entity "app") (Examples.answering 200 JNull))).
  exists {| ep_url := "http://wud:3000/api/containers";
            ep_container_id := JStr "c0ffee";
            ep_trigger_path := "docker/local" |},
    {| status := 200; json_body := Ok JNull; text_body := Ok "" |}, "".
  split_and!; [by vm_compute; right; right; left | reflexivity..].
Defined.

End InstallFacts.

(** * The setup of the platform *)

Module PlatformFacts.
Import Py Coordinator Update PyFacts Platform.

(** X16: the setup of the platform hands over entities exactly when a
    coordinator is stored for the entry and its last refresh succeeded; it
    then makes one entity for every key of the snapshot and no other: no two
    entities are equal, there are as many as the snapshot has entries, each
    carries the entry id, and nothing is logged. Otherwise it logs one error
    and adds nothing. *)
Theorem setup_one_entity_per_key hass_data entry_id :
  match async_setup_entry hass_data entry_id with
  | (trace, Some entities) =>
      trace = [] ∧
      ∃ coordinator,
        default ∅ hass_data !! entry_id = Some coordinator ∧
        last_update_success coordinator = true ∧
        NoDup entities ∧
        length entities = size (data coordinator) ∧
        ∀ entity, entity ∈ entities ↔
                  _entry_id entity = entry_id ∧
                  is_Some (data coordinator !! _container_name entity)
  | (trace, None) =>
      (default ∅ hass_data !! entry_id = None ∨
       ∃ coordinator, default ∅ hass_data !! entry_id = Some coordinator ∧
                      last_update_success coordinator = false) ∧
      ∃ fmt, trace = [Log ERROR fmt]
  end.
Proof.
  unfold async_setup_entry.
  destruct (default ∅ hass_data !! entry_id) as [coordinator|] eqn:Hc;
    [|split; [by left|by eexists]].
  destruct (last_update_success coordinator) eqn:Hok; cbn [negb];
    [|split; [right; by exists coordinator|by eexists]].
  split; [done|]. exists coordinator. split_and!; [done..| | |].
  - assert ((λ kv : hkey * json, new_entity kv.1 entry_id) <$> map_to_list (data coordinator)
            = (λ k, new_entity k entry_id) <$> (map_to_list (data coordinator)).*1) as ->
      by by rewrite <- list_fmap_compose.
    apply NoDup_fmap_2; [apply _|apply NoDup_fst_map_to_list].
  - by rewrite length_fmap, length_map_to_list.
  - intros [key id]. rewrite list_elem_of_fmap. cbn. split.
    + intros ([k r] & [= -> ->] & Hin%elem_of_map_to_list). split; [done|by eexists].
    + intros [-> [r Hr]]. exists (key, r). split; [done|by apply elem_of_map_to_list].
Qed.

Lemma setup_one_entity_per_key_witness :
  match async_setup_entry
          Cases.stored "entry" with
  | (trace, Some entities) =>
      trace = [] ∧
      ∃ coordinator,
        default ∅ Cases.stored
          !! "entry" = Some coordinator ∧
        last_update_success coordinator = true ∧
        NoDup entities ∧
        length entities = size (data coordinator) ∧
        ∀ entity, entity ∈ entities ↔
                  _entry_id entity = "entry" ∧
                  is_Some (data coordinator !! _container_name entity)
  | (trace, None) =>
      (default ∅ Cases.stored
         !! "entry" = None ∨
       ∃ coordinator,
         default ∅ Cases.stored
           !! "entry" = Some coordinator ∧
         last_update_success coordinator = false) ∧
      ∃ fmt, trace = [Log ERROR fmt]
  end.
Proof.
  apply (setup_one_entity_per_key
           Cases.stored "entry").
Defined.

(** X17: within an entry, containers with different names get different
    unique ids and different entity names. *)
Theorem unique_ids_distinct entry_id instance_name name1 name2 :
  name1 ≠ name2 →
  _attr_unique_id entry_id name1 ≠ _attr_unique_id entry_id name2 ∧
  _attr_name name1 instance_name ≠ _attr_name name2 instance_name.
Proof.
  intros Hne. unfold _attr_unique_id, _attr_name. split.
  - by intros ?%(inj (String.app entry_id))%(inj (String.app "_")).
  - intros Heq. apply Hne.
    assert (∀ a b suffix, a +:+ suffix = b +:+ suffix → a = b) as Hcancel.
    { intros a b suffix H.
      assert (String.length a = String.length b) as Hlen.
      { apply (f_equal String.length) in H.
        rewrite !PyStrFacts.length_app in H. lia. }
      revert b H Hlen. induction a as [|c a IH]; intros [|d b] H Hlen; try done.
      rewrite !PyStrFacts.app_cons in H. injection H as -> H.
      f_equal. apply IH; [done|]. by injection Hlen. }
    by apply (Hcancel _ _ (" (" +:+ instance_name +:+ ")")).
Qed.

Lemma unique_ids_distinct_witness :
  _attr_unique_id "entry" "app" ≠ _attr_unique_id "entry" "db" ∧
  _attr_name "app" "home" ≠ _attr_name "db" "home".
Proof. apply (unique_ids_distinct "entry" "home" "app" "db"). discriminate. Defined.

End PlatformFacts.

(** * The configuration flow *)

Module FlowFacts.
Import Py Coordinator PyStr PyFacts ConfigFlow Wiring.

Lemma BasicAuth_str login password :
  BasicAuth (CStr login) (CStr password) =
  if contains login ":" then Raise ValueError else Ok (CStr login, CStr password).
Proof. reflexivity. Qed.

(** What the user step has seen and saved when it creates an entry. *)
Lemma user_step_created manager net input title data :
  (async_step_user manager net (Some input)).2 = Ok (CreateEntry title data) →
  contains (in_username input) ":" = false ∧
  title = "WUD (" +:+ in_name input +:+ ")" ∧
  data = <["token" := CStr (in_token input)]>
           (<["password" := CStr (in_password input)]>
              (<["username" := CStr (in_username input)]>
                 (<["port" := CInt (in_port input)]>
                    (<["host" := CStr (in_host input)]>
                       (<["protocol" := CStr (in_protocol input)]>
                          (<["name" := CStr (in_name input)]> ∅)))))).
Proof.
  unfold async_step_user, connect. rewrite BasicAuth_str.
  destruct (contains (in_username input) ":"); [done|].
  destruct (on_get net _) as [r|e]; [|by destruct (is_client_error _)].
  destruct (negb _); [done|].
  destruct (abort_reason manager _); [done|].
  cbn. by intros [= <- <-].
Qed.

(** X18: the user step creates an entry exactly when the user name holds no
    colon, the probe of the containers address is answered with status 200,
    and the flow manager accepts the unique id; any other status, 201 and 204
    included, creates nothing. *)
Theorem user_step_creates_iff manager net input :
  (∃ title data,
     (async_step_user manager net (Some input)).2 = Ok (CreateEntry title data)) ↔
  contains (in_username input) ":" = false ∧
  (∃ r, on_get net (probe_url input) = Responds r ∧ status r = 200%Z) ∧
  abort_reason manager (unique_id input) = None.
Proof.
  unfold async_step_user, connect, probe_url, unique_id. rewrite BasicAuth_str.
  split.
  - intros (title & data & H).
    destruct (contains (in_username input) ":"); [done|].
    destruct (on_get net _) as [r|e]; [|by destruct (is_client_error _)].
    destruct (status r =? 200)%Z eqn:H200; cbn [negb] in H; [|done].
    destruct (abort_reason manager _); [done|].
    split_and!; [done| |done]. exists r. split; [done|by apply Z.eqb_eq].
  - intros (-> & (r & -> & H200) & ->). rewrite H200. cbn. by eexists _, _.
Qed.

Lemma user_step_creates_iff_witness :
  ∃ title data,
    (async_step_user Cases.fresh_manager (Examples.answering 200 (JList []))
       (Some (Cases.input_for "home" "wud"))).2 = Ok (CreateEntry title data).
Proof.
  apply (proj2 (user_step_creates_iff Cases.fresh_manager
                  (Examples.answering 200 (JList [])) (Cases.input_for "home" "wud"))).
  split_and!; [reflexivity| |reflexivity].
  exists {| status := 200; json_body := Ok (JList []); text_body := Ok "" |}.
  split; reflexivity.
Defined.

(** X19: the entry the user step creates holds the input unchanged: its
    title is "WUD (name)", and its data carries the seven values of the form
    under their seven keys and nothing else. *)
Theorem created_entry_holds_input manager net input title data :
  (async_step_user manager net (Some input)).2 = Ok (CreateEntry title data) →
  title = "WUD (" +:+ in_name input +:+ ")" ∧
  data !! "name" = Some (CStr (in_name input)) ∧
  data !! "protocol" = Some (CStr (in_protocol input)) ∧
  data !! "host" = Some (CStr (in_host input)) ∧
  data !! "port" = Some (CInt (in_port input)) ∧
  data !! "username" = Some (CStr (in_username input)) ∧
  data !! "password" = Some (CStr (in_password input)) ∧
  data !! "token" = Some (CStr (in_token input)) ∧
  size data = 7.
Proof.
  unfold async_step_user, connect. rewrite BasicAuth_str.
  destruct (contains (in_username input) ":"); [done|].
  destruct (on_get net _) as [r|e]; [|by destruct (is_client_error _)].
  destruct (negb _); [done|].
  destruct (abort_reason manager _); [done|].
  cbn. intros [= <- <-]. split_and!; try reflexivity.
Qed.

Lemma created_entry_holds_input_witness :
  ∃ data : gmap string conf_value,
    data !! "port" = Some (CInt 3000) ∧ data !! "host" = Some (CStr "wud") ∧
    size data = 7.
Proof.
  eexists.
  refine (let H := created_entry_holds_input Cases.fresh_manager
                     (Examples.answering 200 (JList []))
                     (Cases.input_for "home" "wud") _ _ eq_refl in _).
  destruct H as (_ & _ & _ & Hhost & Hport & _ & _ & _ & Hsize).
  split_and!; [exact Hport | exact Hhost | exact Hsize].
Defined.

(** X20: when the flow manager refuses the unique id after a probe answered
    with 200, the refusal is caught inside the step like any other exception:
    the step does not abort, it logs "Unexpected error" and shows the form
    again with the base error "unknown". *)
Theorem user_step_refused_id manager net input r reason :
  contains (in_username input) ":" = false →
  on_get net (probe_url input) = Responds r →
  status r = 200%Z →
  abort_reason manager (unique_id input) = Some reason →
  async_step_user manager net (Some input)
  = ([HttpGet (probe_url input); Log ERROR "Unexpected error"],
     Ok (user_form_error "unknown")).
Proof.
  intros Hcolon Hget H200 Habort.
  unfold async_step_user, connect, probe_url, unique_id in *.
  by rewrite BasicAuth_str, Hcolon, Hget, H200, Habort.
Qed.

Lemma user_step_refused_id_witness :
  async_step_user Cases.taken_manager (Examples.answering 200 (JList []))
    (Some (Cases.input_for "home" "wud"))
  = ([HttpGet "http://wud:3000/api/containers"; Log ERROR "Unexpected error"],
     Ok (user_form_error "unknown")).
Proof.
  apply (user_step_refused_id Cases.taken_manager (Examples.answering 200 (JList []))
           (Cases.input_for "home" "wud")
           {| status := 200; json_body := Ok (JList []); text_body := Ok "" |}
           "already_configured");
    reflexivity.
Defined.

(** X21: the base error of the user step: an answer with a status other than
    200 gives "cannot_connect" without a log entry; a request that raises a
    client error gives "cannot_connect"; a request that raises anything else,
    a plain timeout included, gives "unknown". In each case the form is shown
    again and nothing is raised. *)
Theorem user_step_errors manager net input :
  contains (in_username input) ":" = false →
  (∀ r, on_get net (probe_url input) = Responds r → status r ≠ 200%Z →
        async_step_user manager net (Some input)
        = ([HttpGet (probe_url input)], Ok (user_form_error "cannot_connect"))) ∧
  (∀ e, on_get net (probe_url input) = Fails e →
        async_step_user manager net (Some input)
        = if is_ClientError e
          then ([HttpGet (probe_url input); Log ERROR "Client error connecting to WUD"],
                Ok (user_form_error "cannot_connect"))
          else ([HttpGet (probe_url input); Log ERROR "Unexpected error"],
                Ok (user_form_error "unknown"))).
Proof.
  intros Hcolon. unfold async_step_user, connect, probe_url in *.
  rewrite BasicAuth_str, Hcolon. split.
  - intros r -> H200%Z.eqb_neq. by rewrite H200.
  - intros e ->. cbn. by destruct (is_ClientError e).
Qed.

Lemma user_step_errors_witness :
  async_step_user Cases.fresh_manager (Examples.failing TimeoutError)
    (Some (Cases.input_for "home" "wud"))
  = ([HttpGet "http://wud:3000/api/containers"; Log ERROR "Unexpected error"],
     Ok (user_form_error "unknown")).
Proof.
  apply (proj2 (user_step_errors Cases.fresh_manager (Examples.failing TimeoutError)
                  (Cases.input_for "home" "wud") eq_refl) TimeoutError).
  reflexivity.
Defined.

(** X22: a user name that holds a colon makes the user step raise
    [ValueError] while the credentials are built, before any request and
    outside the step's own handlers. *)
Theorem user_step_colon manager net input :
  contains (in_username input) ":" = true →
  async_step_user manager net (Some input) = ([], Raise ValueError).
Proof.
  intros Hcolon. unfold async_step_user. by rewrite BasicAuth_str, Hcolon.
Qed.

Lemma user_step_colon_witness :
  async_step_user Cases.fresh_manager (Examples.answering 200 (JList []))
    (Some {| in_name := "home"; in_protocol := "http"; in_host := "wud";
             in_port := 3000; in_username := "a:b"; in_password := "";
             in_token := "" |})
  = ([], Raise ValueError).
Proof.
  apply (user_step_colon Cases.fresh_manager (Examples.answering 200 (JList []))).
  reflexivity.
Defined.

End FlowFacts.

(** * The setup and the unloading of an entry *)

Module IntegrationFacts.
Import Py Coordinator PyStr PyFacts ConfigFlow Integration Wiring FlowFacts.

(** The setup once the seven keys are there. *)
Lemma async_setup_entry_read platform hass_data entry
    name protocol host port username password token :
  entry_data entry !! "name" = Some name →
  entry_data entry !! "protocol" = Some protocol →
  entry_data entry !! "host" = Some host →
  entry_data entry !! "port" = Some port →
  entry_data entry !! "username" = Some username →
  entry_data entry !! "password" = Some password →
  entry_data entry !! "token" = Some token →
  async_setup_entry platform hass_data entry =
  match auth ← BasicAuth username password;
        first_refresh platform
          (new_coordinator (containers_url protocol host port) name) with
  | Raise e => (Some (default ∅ hass_data), Raise e)
  | Ok coordinator =>
      (Some (<[entry_id entry := coordinator]> (default ∅ hass_data)),
       _ ← forward_entry_setups platform; Ok true)
  end.
Proof.
  intros H1 H2 H3 H4 H5 H6 H7. unfold async_setup_entry, entry_getitem.
  by rewrite H1, H2, H3, H4, H5, H6, H7.
Qed.

(** X23: an entry that the user step created can always be read by the
    setup: no key is missing and the credentials are accepted; the
    coordinator it builds polls exactly the address the step probed, under
    the name that was entered, and is stored under the entry's id once its
    first refresh has succeeded. *)
Theorem setup_reads_created_entry manager net input title saved platform hass_data id :
  (async_step_user manager net (Some input)).2 = Ok (CreateEntry title saved) →
  async_setup_entry platform hass_data {| entry_id := id; entry_data := saved |} =
  match first_refresh platform
          {| _url := probe_url input; _instance_name := in_name input;
             data := ∅; last_update_success := true |} with
  | Raise e => (Some (default ∅ hass_data), Raise e)
  | Ok coordinator =>
      (Some (<[id := coordinator]> (default ∅ hass_data)),
       _ ← forward_entry_setups platform; Ok true)
  end.
Proof.
  intros Hcreated.
  destruct (user_step_created _ _ _ _ _ Hcreated) as (Hcolon & _ & ->).
  rewrite (async_setup_entry_read platform hass_data
             {| entry_id := id; entry_data := _ |}
             (CStr (in_name input)) (CStr (in_protocol input)) (CStr (in_host input))
             (CInt (in_port input)) (CStr (in_username input))
             (CStr (in_password input)) (CStr (in_token input)))
    by reflexivity.
  by rewrite BasicAuth_str, Hcolon.
Qed.

Lemma setup_reads_created_entry_witness :
  ∃ saved : gmap string conf_value,
    async_setup_entry
      {| first_refresh := Ok; forward_entry_setups := Ok (); unload_platforms := Ok true |}
      None {| entry_id := "entry"; entry_data := saved |}
    = (Some {[ "entry" :=
                 {| _url := "http://wud:3000/api/containers"; _instance_name := "home";
                    data := ∅; last_update_success := true |} ]},
       Ok true).
Proof.
  eexists.
  refine (let H := setup_reads_created_entry Cases.fresh_manager
                     (Examples.answering 200 (JList []))
                     (Cases.input_for "home" "wud") _ _
                     {| first_refresh := Ok; forward_entry_setups := Ok ();
                        unload_platforms := Ok true |}
                     None "entry" eq_refl in _).
  exact H.
Defined.

(** X24: when the data of the entry lacks one of the seven keys that the
    setup reads, the setup raises [KeyError]; no coordinator is refreshed or
    stored, whatever the host platform would do. *)
Theorem setup_missing_key platform hass_data entry key :
  key ∈ setup_keys →
  entry_data entry !! key = None →
  async_setup_entry platform hass_data entry = (Some (default ∅ hass_data), Raise KeyError).
Proof.
  unfold setup_keys, async_setup_entry, entry_getitem.
  rewrite !elem_of_cons, elem_of_nil.
  intros [->|[->|[->|[->|[->|[->|[->|[]]]]]]]] Hkey; rewrite Hkey;
    repeat match goal with
           | |- context [entry_data entry !! ?k] => destruct (entry_data entry !! k)
           end;
    done.
Qed.

Lemma setup_missing_key_witness :
  async_setup_entry
    {| first_refresh := Ok; forward_entry_setups := Ok (); unload_platforms := Ok true |}
    None {| entry_id := "entry"; entry_data := {[ "name" := CStr "home" ]} |}
  = (Some ∅, Raise KeyError).
Proof.
  apply (setup_missing_key _ None
           {| entry_id := "entry"; entry_data := {[ "name" := CStr "home" ]} |} "token");
    [by vm_compute; repeat constructor | reflexivity].
Defined.

(** X25: unloading undoes a setup: after a setup that returned, on an entry
    id that was not stored before, an unloading whose platforms unload gives
    back the coordinators that were stored before the setup, and returns
    true. *)
Theorem unload_after_setup platform hass_data entry hass_data' r :
  async_setup_entry platform hass_data entry = (hass_data', Ok r) →
  default ∅ hass_data !! entry_id entry = None →
  unload_platforms platform = Ok true →
  async_unload_entry platform hass_data' entry = (Some (default ∅ hass_data), Ok true).
Proof.
  unfold async_setup_entry, async_unload_entry. intros Hsetup Hfresh ->.
  destruct (_ ≫= _) as [coordinator|e]; [|done].
  injection Hsetup as <- _. cbn [default from_option id].
  rewrite lookup_insert_eq. cbn [fmap option_fmap option_map].
  by rewrite delete_insert_id.
Qed.

Lemma unload_after_setup_witness :
  async_unload_entry
    {| first_refresh := Ok; forward_entry_setups := Ok (); unload_platforms := Ok true |}
    (Some {[ "entry" := new_coordinator "http://wud:3000/api/containers" (CStr "home") ]})
    {| entry_id := "entry";
       entry_data :=
         list_to_map [("name", CStr "home"); ("protocol", CStr "http");
                      ("host", CStr "wud"); ("port", CInt 3000);
                      ("username", CStr "homeassistant"); ("password", CStr "");
                      ("token", CStr "")] |}
  = (Some ∅, Ok true).
Proof.
  apply (unload_after_setup
           {| first_refresh := Ok; forward_entry_setups := Ok ();
              unload_platforms := Ok true |}
           None _ _ true);
    reflexivity.
Defined.

(** X26: an unloading whose platforms unload raises [KeyError] when no
    coordinator is stored for the entry, and leaves what is stored as it is.
    This is what follows a setup that raised before it stored its
    coordinator (a key missing, credentials refused, a first refresh that
    failed) on an entry id that was not stored before. *)
Theorem unload_missing_raises platform entry :
  unload_platforms platform = Ok true →
  (∀ hass_data,
     default ∅ hass_data !! entry_id entry = None →
     async_unload_entry platform hass_data entry = (hass_data, Raise KeyError)) ∧
  (∀ hass_data hass_data' e,
     default ∅ hass_data !! entry_id entry = None →
     forward_entry_setups platform = Ok () →
     async_setup_entry platform hass_data entry = (hass_data', Raise e) →
     async_unload_entry platform hass_data' entry = (hass_data', Raise KeyError)).
Proof.
  intros Hok. unfold async_unload_entry. rewrite Hok. split.
  - by intros hass_data ->.
  - intros hass_data hass_data' e Hfresh Hforward. unfold async_setup_entry.
    rewrite Hforward. destruct (_ ≫= _) as [coordinator|e']; [done|].
    intros [= <- _]. cbn [default from_option id]. by rewrite Hfresh.
Qed.

Lemma unload_missing_raises_witness :
  async_unload_entry
    {| first_refresh := Ok; forward_entry_setups := Ok (); unload_platforms := Ok true |}
    None {| entry_id := "entry"; entry_data := ∅ |}
  = (None, Raise KeyError).
Proof.
  apply (proj1 (unload_missing_raises
                  {| first_refresh := Ok; forward_entry_setups := Ok ();
                     unload_platforms := Ok true |}
                  {| entry_id := "entry"; entry_data := ∅ |} eq_refl) None).
  reflexivity.
Defined.

(** X27: the two setups fit: after a setup of the entry that returned, the
    setup of the platform finds the coordinator under the entry's id, so it
    never reports a missing coordinator; it makes the entities of the
    refreshed coordinator's snapshot when that refresh succeeded. *)
Theorem platform_finds_coordinator platform hass_data entry hass_data' r :
  async_setup_entry platform hass_data entry = (hass_data', Ok r) →
  ∃ coordinator,
    default ∅ hass_data' !! entry_id entry = Some coordinator ∧
    Platform.async_setup_entry hass_data' (entry_id entry) =
    if last_update_success coordinator then
      ([], Some ((λ kv, Platform.new_entity kv.1 (entry_id entry))
                   <$> map_to_list (data coordinator)))
    else ([Log ERROR "Failed to retrieve data from WUD at startup"], None).
Proof.
  unfold async_setup_entry. destruct (_ ≫= _) as [coordinator|e]; [|done].
  intros [= <- _]. exists coordinator. unfold Platform.async_setup_entry.
  cbn [default from_option id]. rewrite lookup_insert_eq.
  split; [done|]. by destruct (last_update_success coordinator).
Qed.

Lemma platform_finds_coordinator_witness :
  ∃ coordinator,
    default ∅ (Some ({[ "entry" := new_coordinator "http://wud:3000/api/containers"
                                     (CStr "home") ]}
                     : gmap string WUDDataUpdateCoordinator))
      !! "entry" = Some coordinator ∧
    Platform.async_setup_entry
      (Some {[ "entry" := new_coordinator "http://wud:3000/api/containers"
                            (CStr "home") ]}) "entry" =
    if last_update_success coordinator then
      ([], Some ((λ kv, Platform.new_entity kv.1 "entry")
                   <$> map_to_list (data coordinator)))
    else ([Log ERROR "Failed to retrieve data from WUD at startup"], None).
Proof.
  apply (platform_finds_coordinator
           {| first_refresh := Ok; forward_entry_setups := Ok ();
              unload_platforms := Ok true |}
           None
           {| entry_id := "entry";
              entry_data :=
                list_to_map [("name", CStr "home"); ("protocol", CStr "http");
                             ("host", CStr "wud"); ("port", CInt 3000);
                             ("username", CStr "homeassistant"); ("password", CStr "");
                             ("token", CStr "")] |}
           _ true).
  reflexivity.
Defined.

End IntegrationFacts.
